(** * ImageSplitter: the chunking pipeline of [imageprocessor] and its HTTP front end

    A shallow embedding of the Go sources

    - [imageprocessor] ([Processor.ProcessImage], [downloadImage],
      [downloadImageWithCurl], [processImageWithCLI], [processImageWithGo],
      [addFileToZip]) and
    - [main] ([handleSplitImage], [containsOnlyAllowedChars], [basicAuth],
      the start-up checks of [main] with [checkIfFileExists],
      [checkIfIsDirectory] and [checkIfIsWritable], and the dimension parser
      of the earlier, [identify]-based revision),

    followed by the properties of the specification that were checked against
    them.  [handleSplitImage] calls [Processor.ProcessImage] with an archive
    flag as fifth argument; the sources hold the package in the revision
    before that flag, so the processor with the flag is modelled from the
    specification, in [WithZipFlag].

    Conventions.
    - Go's [int] is the 64-bit two's-complement integer of the usual targets
      (amd64, arm64): a value is a [Z], and every arithmetic operation of the
      source is written with its wrap-around ([GoInt.add], [GoInt.mul], ...).
      Integer division by zero is a run-time panic.
    - A Go [string] is its sequence of bytes: [String.string].  Where the
      source ranges over runes, the bytes are decoded as UTF-8 ([utf8]).
    - Everything outside the process (clock, file system, network, external
      commands, codecs) is an oracle of the record [Env]; the effects a run
      performs are recorded, in order, in a trace of [Event]s. *)

From Stdlib Require Import ZArith List String Ascii Bool Lia.
Import ListNotations.

Local Open Scope string_scope.
Local Open Scope Z_scope.

(** ** Go's [int] *)

Module GoInt.

Definition min_int : Z := - 2 ^ 63.
Definition max_int : Z := 2 ^ 63 - 1.

Definition in_range (z : Z) : Prop := min_int <= z <= max_int.

(** Two's-complement reduction of a mathematical integer to an [int]. *)
Definition wrap (z : Z) : Z := (z + 2 ^ 63) mod 2 ^ 64 - 2 ^ 63.

Definition add (a b : Z) : Z := wrap (a + b).
Definition sub (a b : Z) : Z := wrap (a - b).
Definition mul (a b : Z) : Z := wrap (a * b).

(** [a / b]: truncated towards zero; [None] is the run-time panic
    "integer divide by zero". *)
Definition quo (a b : Z) : option Z :=
  if b =? 0 then None else Some (wrap (Z.quot a b)).

End GoInt.

(** ** [fmt.Sprintf("%d", n)] *)

Definition digitChar (d : Z) : ascii := ascii_of_nat (48 + Z.to_nat d).

(** The digits of a non-negative [n], most significant first, pushed in front
    of [acc]; twenty rounds cover every 64-bit value. *)
Fixpoint formatBits (fuel : nat) (n : Z) (acc : string) : string :=
  match fuel with
  | O => acc
  | S fuel' =>
      let acc' := String (digitChar (n mod 10)) acc in
      if n <? 10 then acc' else formatBits fuel' (n / 10) acc'
  end.

Definition Sprintf_d (n : Z) : string :=
  if n <? 0 then String "-"%char (formatBits 20 (- n) "")
  else formatBits 20 n "".

(** ** The chunk layout

    Both strategies compute the layout inline, in the loop that renders the
    chunks.  The values one loop iteration computes are gathered in a
    [ChunkSpec].  [processImageWithGo] and [processImageWithCLI] each carry
    their own copy of the computation; the two copies are transcribed
    separately, in [Module Go] and [Module CLI]. *)

Record ChunkSpec : Type := mkChunk {
  index    : Z;       (* fileNumber = i + 1 *)
  startY   : Z;
  endY     : Z;
  outWidth : Z;       (* width of the produced chunk *)
  xOffset  : Z;       (* source column of the chunk's column 0 *)
  fileName : string   (* base name of the chunk file *)
}.

(** The values [0, 1, ..., n-1] taken by the loop variable of
    [for i := 0; i < n; i++] (none when [n <= 0]). *)
Definition loopIndices (n : Z) : list Z := map Z.of_nat (seq 0 (Z.to_nat n)).

Module Go.

(** "Determine if we need to crop the width": [(width, cropWidth)]. *)
Definition cropDecision (originalWidth requestedWidth : Z) : Z * bool :=
  let width := originalWidth in
  if (requestedWidth >? 0) && (originalWidth >? requestedWidth)
  then (requestedWidth, true)
  else (width, false).

(** "Calculate number of splits needed", then "Limit the number of
    images".  [None]: the division panicked. *)
Definition splitCount (totalHeight maxHeight maxImages : Z) : option Z :=
  match GoInt.quo (GoInt.sub (GoInt.add totalHeight maxHeight) 1) maxHeight with
  | None => None
  | Some splitCount =>
      Some (if (maxImages >? 0) && (splitCount >? maxImages)
            then maxImages else splitCount)
  end.

(** [srcX] of the pixel copy [subImg.Set(x, y-startY, img.At(srcX, y))]:
    [x], or [x + offset] with [offset := 0] when the width is cropped. *)
Definition srcX (cropWidth : bool) (x : Z) : Z :=
  if cropWidth then let offset := 0 in GoInt.add x offset else x.

(** "Add leading zero for numbers less than 10". *)
Definition fileNumberStr (fileNumber : Z) : string :=
  if fileNumber <? 10 then "0" ++ Sprintf_d fileNumber
  else Sprintf_d fileNumber.

(** Iteration [i] of "Split the image". *)
Definition chunk (originalWidth totalHeight maxHeight requestedWidth : Z)
    (imagesPrefix : string) (i : Z) : ChunkSpec :=
  let '(width, cropWidth) := cropDecision originalWidth requestedWidth in
  let startY := GoInt.mul i maxHeight in
  let endY := GoInt.add startY maxHeight in
  let endY := if endY >? totalHeight then totalHeight else endY in
  let fileNumber := GoInt.add i 1 in
  {| index := fileNumber; startY := startY; endY := endY;
     outWidth := width; xOffset := srcX cropWidth 0;
     fileName := imagesPrefix ++ "_" ++ fileNumberStr fileNumber ++ ".jpg" |}.

Definition plan (originalWidth totalHeight maxHeight requestedWidth maxImages : Z)
    (imagesPrefix : string) : option (list ChunkSpec) :=
  match splitCount totalHeight maxHeight maxImages with
  | None => None
  | Some n =>
      Some (map (chunk originalWidth totalHeight maxHeight requestedWidth
                       imagesPrefix)
                (loopIndices n))
  end.

End Go.

Module CLI.

(** "Determine if we need to crop the width": [(width, cropWidth)]. *)
Definition cropDecision (originalWidth requestedWidth : Z) : Z * bool :=
  if (requestedWidth >? 0) && (originalWidth >? requestedWidth)
  then (requestedWidth, true)
  else (originalWidth, false).

Definition splitCount (totalHeight maxHeight maxImages : Z) : option Z :=
  match GoInt.quo (GoInt.sub (GoInt.add totalHeight maxHeight) 1) maxHeight with
  | None => None
  | Some splitCount =>
      Some (if (maxImages >? 0) && (splitCount >? maxImages)
            then maxImages else splitCount)
  end.

Definition fileNumberStr (fileNumber : Z) : string :=
  if fileNumber <? 10 then "0" ++ Sprintf_d fileNumber
  else Sprintf_d fileNumber.

(** The x-offset and width arguments of [vips crop]: [xOffset := 0] and
    [requestedWidth] when the width is cropped, the literal ["0"] and
    [width] otherwise. *)
Definition cropArgsX (width requestedWidth : Z) (cropWidth : bool) : Z * Z :=
  if cropWidth then let xOffset := 0 in (xOffset, requestedWidth)
  else (0, width).

(** Iteration [i] of "Split the image using vips". *)
Definition chunk (originalWidth totalHeight maxHeight requestedWidth : Z)
    (imagesPrefix : string) (i : Z) : ChunkSpec :=
  let '(width, cropWidth) := cropDecision originalWidth requestedWidth in
  let startY := GoInt.mul i maxHeight in
  let endY := GoInt.add startY maxHeight in
  let endY := if endY >? totalHeight then totalHeight else endY in
  let fileNumber := GoInt.add i 1 in
  let '(x, w) := cropArgsX width requestedWidth cropWidth in
  {| index := fileNumber; startY := startY; endY := endY;
     outWidth := w; xOffset := x;
     fileName := imagesPrefix ++ "_" ++ fileNumberStr fileNumber ++ ".jpg" |}.

Definition plan (originalWidth totalHeight maxHeight requestedWidth maxImages : Z)
    (imagesPrefix : string) : option (list ChunkSpec) :=
  match splitCount totalHeight maxHeight maxImages with
  | None => None
  | Some n =>
      Some (map (chunk originalWidth totalHeight maxHeight requestedWidth
                       imagesPrefix)
                (loopIndices n))
  end.

End CLI.

Definition yRanges (p : list ChunkSpec) : list (Z * Z) :=
  map (fun c => (startY c, endY c)) p.

Definition fileNames (p : list ChunkSpec) : list string := map fileName p.

(** Row [y] of the source lies in the chunk. *)
Definition covers (c : ChunkSpec) (y : Z) : Prop := startY c <= y < endY c.

(** ** Strings: the functions of [strings] and [strconv] the parser uses *)

Definition byteOf (c : ascii) : Z := Z.of_N (N_of_ascii c).

(** The six ASCII white-space bytes of [strings.TrimSpace]. *)
Definition isAsciiSpace (c : ascii) : bool :=
  let b := byteOf c in
  (b =? 9) || (b =? 10) || (b =? 11) || (b =? 12) || (b =? 13) || (b =? 32).

(** UTF-8 encodings of the other runes of [unicode.IsSpace]:
    U+0085 and U+00A0 (two bytes); U+1680, U+2000..U+200A, U+2028, U+2029,
    U+202F, U+205F and U+3000 (three bytes). *)
Definition isSpace2 (a b : ascii) : bool :=
  (byteOf a =? 194) && ((byteOf b =? 133) || (byteOf b =? 160)).

Definition isSpace3 (a b c : ascii) : bool :=
  let '(a, b, c) := (byteOf a, byteOf b, byteOf c) in
  ((a =? 225) && (b =? 154) && (c =? 128))
  || ((a =? 226) && (b =? 128)
      && (((128 <=? c) && (c <=? 138)) || (c =? 168) || (c =? 169) || (c =? 175)))
  || ((a =? 226) && (b =? 129) && (c =? 159))
  || ((a =? 227) && (b =? 128) && (c =? 128)).

Fixpoint trimLeftSpace (s : string) : string :=
  match s with
  | "" => ""
  | String a r =>
      if isAsciiSpace a then trimLeftSpace r
      else
        match r with
        | String b r' =>
            if isSpace2 a b then trimLeftSpace r'
            else
              match r' with
              | String c r'' => if isSpace3 a b c then trimLeftSpace r'' else s
              | "" => s
              end
        | "" => s
        end
  end.

Fixpoint revAppend (s acc : string) : string :=
  match s with
  | "" => acc
  | String c r => revAppend r (String c acc)
  end.

Definition reverse (s : string) : string := revAppend s "".

(** [trimLeftSpace] read from the end: the argument is a reversed string. *)
Fixpoint trimRightSpaceRev (s : string) : string :=
  match s with
  | "" => ""
  | String c r =>
      if isAsciiSpace c then trimRightSpaceRev r
      else
        match r with
        | String b r' =>
            if isSpace2 b c then trimRightSpaceRev r'
            else
              match r' with
              | String a r'' => if isSpace3 a b c then trimRightSpaceRev r'' else s
              | "" => s
              end
        | "" => s
        end
  end.

(** [strings.TrimSpace] *)
Definition TrimSpace (s : string) : string :=
  reverse (trimRightSpaceRev (reverse (trimLeftSpace s))).

(** [strings.Split(s, sep)] for a separator of one byte, which all the call
    sites have; the result is never empty. *)
Fixpoint Split (s : string) (sep : ascii) : list string :=
  match s with
  | "" => [""]
  | String c r =>
      if Ascii.eqb c sep then "" :: Split r sep
      else
        match Split r sep with
        | piece :: pieces => String c piece :: pieces
        | [] => [String c ""]
        end
  end.

Definition isDigit (c : ascii) : bool := (48 <=? byteOf c) && (byteOf c <=? 57).

Fixpoint parseDigits (s : string) (acc : Z) : option Z :=
  match s with
  | "" => Some acc
  | String c r =>
      if isDigit c then parseDigits r (acc * 10 + (byteOf c - 48)) else None
  end.

(** [strconv.Atoi]: an optional sign, then one or more decimal digits;
    [None] for a syntax error and for a value outside [int]. *)
Definition Atoi (s : string) : option Z :=
  let '(neg, digits) :=
    match s with
    | String "+"%char r => (false, r)
    | String "-"%char r => (true, r)
    | _ => (false, s)
    end in
  match digits with
  | "" => None
  | _ =>
      match parseDigits digits 0 with
      | None => None
      | Some v =>
          let n := if neg then - v else v in
          if (GoInt.min_int <=? n) && (n <=? GoInt.max_int) then Some n else None
      end
  end.

Fixpoint hasPrefix (s prefix : string) : bool :=
  match prefix, s with
  | "", _ => true
  | String p prefix', String c s' => Ascii.eqb c p && hasPrefix s' prefix'
  | String _ _, "" => false
  end.

(** [strings.HasSuffix] *)
Definition HasSuffix (s suffix : string) : bool :=
  hasPrefix (reverse s) (reverse suffix).

Definition lowerByte (c : ascii) : ascii :=
  if (65 <=? byteOf c) && (byteOf c <=? 90)
  then ascii_of_N (N_of_ascii c + 32) else c.

Fixpoint lowerASCII (s : string) : string :=
  match s with
  | "" => ""
  | String c r => String (lowerByte c) (lowerASCII r)
  end.

(** [strings.HasSuffix(strings.ToLower(s), ".png")].  The letters of the
    suffix are the lower case of ASCII letters only, so the test reads the
    last four bytes of [s]. *)
Definition hasPngSuffix (s : string) : bool := HasSuffix (lowerASCII s) ".png".

(** ** Errors

    One constructor per [fmt.Errorf] of the package, named after its message
    (and after its function where two functions share a message). *)

Inductive Error : Type :=
| FailedToCreateOutputDirectory
| FailedToDownloadImageWithCurl
| FailedToVerifyDownloadedFile
| DownloadedFileIsEmpty
| FailedToCreateRequest
| FailedToDownloadImage
| Download_FailedToCreateOutputFile
| FailedToSaveImage
| FailedToGetImageDimensions
| UnexpectedOutputFormatFromVipsheader
| UnexpectedDimensionFormatFromVipsheader
| FailedToParseImageWidth
| FailedToParseImageHeight
| FailedToSplitImage
| CLI_FailedToCreateZipFile
| FailedToOpenImageFile
| FailedToDecodeImage
| Go_FailedToCreateOutputFile
| FailedToSaveSplitImage
| Go_FailedToCreateZipFile
| FailedToAddFileToZip
| FailedToCloseZipWriter.

(** The error kinds of the specification, by pipeline step. *)
Inductive ErrorKind : Type :=
| SetupError | FetchError | ProbeError | PlanError | RenderError | ArchiveError.

Definition kindOf (e : Error) : ErrorKind :=
  match e with
  | FailedToCreateOutputDirectory => SetupError
  | FailedToDownloadImageWithCurl | FailedToVerifyDownloadedFile
  | DownloadedFileIsEmpty | FailedToCreateRequest | FailedToDownloadImage
  | Download_FailedToCreateOutputFile | FailedToSaveImage => FetchError
  | FailedToGetImageDimensions | UnexpectedOutputFormatFromVipsheader
  | UnexpectedDimensionFormatFromVipsheader | FailedToParseImageWidth
  | FailedToParseImageHeight | FailedToOpenImageFile | FailedToDecodeImage =>
      ProbeError
  | FailedToSplitImage | Go_FailedToCreateOutputFile | FailedToSaveSplitImage =>
      RenderError
  | CLI_FailedToCreateZipFile | Go_FailedToCreateZipFile | FailedToAddFileToZip
  | FailedToCloseZipWriter => ArchiveError
  end.

(** ** The dimension parser of [processImageWithCLI]

    "Parse dimensions from vipsheader output"; the example of the source is
    [cteam_01.jpg: 1170x5000 uchar, 3 bands, srgb, jpegload]. *)

Definition parseVipsheader (output : string) : Error + (Z * Z) :=
  let outputStr := TrimSpace output in
  match Split outputStr ":" with
  | _ :: part1 :: _ =>
      let dimensionPart := TrimSpace part1 in
      match Split dimensionPart " " with
      | [] => inl UnexpectedDimensionFormatFromVipsheader
      | token0 :: _ =>
          match Split token0 "x" with
          | [d0; d1] =>
              match Atoi d0 with
              | None => inl FailedToParseImageWidth
              | Some width =>
                  match Atoi d1 with
                  | None => inl FailedToParseImageHeight
                  | Some totalHeight => inr (width, totalHeight)
                  end
              end
          | _ => inl UnexpectedDimensionFormatFromVipsheader
          end
      end
  | _ => inl UnexpectedOutputFormatFromVipsheader
  end.

(** The colon-separated fields of the trimmed output, and the first
    space-separated token of the second field: the [WxH] token. *)
Definition colonFields (output : string) : list string :=
  Split (TrimSpace output) ":".

Definition dimensionToken (output : string) : string :=
  hd "" (Split (TrimSpace (nth 1 (colonFields output) "")) " ").

(** ** The outside world

    [Env] fixes how the world answers each call of a run; the calls
    themselves are logged as [Event]s, in program order, whether or not they
    succeed. *)

Inductive HttpOutcome : Type :=
| TransportError                              (* [client.Do] returns an error *)
| Response (status : Z) (body : string).      (* any response, whatever its status *)

Record Env : Type := {
  time_Now_Unix : Z;
  filepath_Join : string -> string -> string;
  filepath_Abs  : string -> string;
  filepath_Rel  : string -> string -> string;
  filepath_Base : string -> string;
  os_MkdirAll : string -> bool;               (* [true]: no error *)
  http_NewRequest : string -> bool;
  client_Do : string -> HttpOutcome;
  os_Create : string -> bool;
  io_Copy : string -> bool;                   (* copy into the file at a path *)
  CombinedOutput : string -> list string -> bool * string;
  os_Stat : string -> option Z;               (* size of the file, if any *)
  os_Open : string -> bool;
  image_Decode : string -> option (Z * Z);    (* [Bounds().Max] of the image *)
  Encode : string -> bool;                    (* [png.Encode] / [jpeg.Encode] *)
  zip_add : string -> bool;                   (* the calls of [addFileToZip] *)
  zipWriter_Close : string -> bool
}.

Inductive Event : Type :=
| MkdirAll (dir : string)
| HttpGet (url : string)
| CreateFile (path : string)
| WriteBody (path : string) (body : string)
| EncodeChunk (path : string) (png : bool) (c : ChunkSpec)
| ZipEntry (zipFile : string) (name : string) (source : string)
| Exec (name : string) (args : list string).

(** A computation: the calls made, and how it ended. *)
Inductive Outcome (A : Type) : Type :=
| Ok (a : A)
| Fail (e : Error)
| Panic.

Arguments Ok {A} a.
Arguments Fail {A} e.
Arguments Panic {A}.

Definition M (A : Type) : Type := list Event * Outcome A.

Definition ret {A} (a : A) : M A := ([], Ok a).
Definition fail {A} (e : Error) : M A := ([], Fail e).
Definition panic {A} : M A := ([], Panic).
Definition call (ev : Event) : M unit := ([ev], Ok tt).

Definition bind {A B} (m : M A) (k : A -> M B) : M B :=
  match m with
  | (t, Ok a) => let '(t', r) := k a in ((t ++ t')%list, r)
  | (t, Fail e) => (t, Fail e)
  | (t, Panic) => (t, Panic)
  end.

Notation "x <- m ;; k" := (bind m (fun x => k))
  (at level 61, m at next level, right associativity).
Notation "m ;;; k" := (bind m (fun _ => k))
  (at level 61, right associativity).

(** [if !ok { return ..., fmt.Errorf(...) }] *)
Definition orFail (ok : bool) (e : Error) : M unit :=
  if ok then ret tt else fail e.

Definition trace {A} (m : M A) : list Event := fst m.
Definition outcome {A} (m : M A) : Outcome A := snd m.

(** ** Package [imageprocessor] *)

Record Processor : Type := {
  OutputBaseDir : string;
  MaxHeight : Z;
  UseCLI : bool
}.

Record ImageResponse : Type := {
  Status : string;
  Message : string;
  ZipURL : string;
  Images : list string
}.

Section Pipeline.

Variable env : Env.

Definition downloadImageWithCurl (url outputPath : string) : M unit :=
  let args := ["--silent"; "--show-error"; "--fail"; "--output"; outputPath; url] in
  call (Exec "curl" args) ;;;
  orFail (fst (CombinedOutput env "curl" args)) FailedToDownloadImageWithCurl ;;;
  match os_Stat env outputPath with
  | None => fail FailedToVerifyDownloadedFile
  | Some size =>
      if size =? 0 then fail DownloadedFileIsEmpty else ret tt
  end.

Definition downloadImage (url outputPath : string) : M unit :=
  orFail (http_NewRequest env url) FailedToCreateRequest ;;;
  call (HttpGet url) ;;;
  match client_Do env url with
  | TransportError => fail FailedToDownloadImage
  | Response _ body =>
      call (CreateFile outputPath) ;;;
      orFail (os_Create env outputPath) Download_FailedToCreateOutputFile ;;;
      call (WriteBody outputPath body) ;;;
      orFail (io_Copy env outputPath) FailedToSaveImage
  end.

(** The body of "Split the image using vips", chunk by chunk; the result is
    [chunkPaths]. *)
Fixpoint renderCLI (imagePath outputDir : string) (chunks : list ChunkSpec)
    : M (list string) :=
  match chunks with
  | [] => ret []
  | c :: rest =>
      let outputPath := filepath_Join env outputDir (fileName c) in
      let cropHeight := GoInt.sub (endY c) (startY c) in
      let args := ["crop"; imagePath; outputPath;
                   Sprintf_d (xOffset c); Sprintf_d (startY c);
                   Sprintf_d (outWidth c); Sprintf_d cropHeight] in
      call (Exec "vips" args) ;;;
      orFail (fst (CombinedOutput env "vips" args)) FailedToSplitImage ;;;
      paths <- renderCLI imagePath outputDir rest ;;
      ret (filepath_Abs env outputPath :: paths)
  end.

Definition processImageWithCLI (p : Processor)
    (imagePath outputDir imagesPrefix : string) (requestedWidth maxImages : Z)
    : M ImageResponse :=
  call (Exec "vipsheader" [imagePath]) ;;;
  let '(ok, output) := CombinedOutput env "vipsheader" [imagePath] in
  orFail ok FailedToGetImageDimensions ;;;
  match parseVipsheader output with
  | inl e => fail e
  | inr (width, totalHeight) =>
      match CLI.splitCount totalHeight (MaxHeight p) maxImages with
      | None => panic
      | Some splitCount =>
          chunkPaths <-
            renderCLI imagePath outputDir
              (map (CLI.chunk width totalHeight (MaxHeight p) requestedWidth
                              imagesPrefix)
                   (loopIndices splitCount)) ;;
          let zipFileName := filepath_Join env outputDir (imagesPrefix ++ ".zip") in
          let zipArgs := "-j" :: zipFileName :: chunkPaths in
          let images := map (filepath_Rel env (OutputBaseDir p)) chunkPaths in
          call (Exec "zip" zipArgs) ;;;
          orFail (fst (CombinedOutput env "zip" zipArgs)) CLI_FailedToCreateZipFile ;;;
          let absZipPath := filepath_Abs env zipFileName in
          ret {| Status := "success";
                 Message := "Successfully split image into "
                            ++ Sprintf_d splitCount
                            ++ " parts and created zip file using CLI tools";
                 ZipURL := filepath_Rel env (OutputBaseDir p) absZipPath;
                 Images := images |}
      end
  end.

(** The body of "Split the image" of [processImageWithGo], chunk by chunk. *)
Fixpoint renderGo (imagePath outputDir : string) (chunks : list ChunkSpec)
    : M (list string) :=
  match chunks with
  | [] => ret []
  | c :: rest =>
      let outputPath := filepath_Join env outputDir (fileName c) in
      call (CreateFile outputPath) ;;;
      orFail (os_Create env outputPath) Go_FailedToCreateOutputFile ;;;
      call (EncodeChunk outputPath (hasPngSuffix imagePath) c) ;;;
      orFail (Encode env outputPath) FailedToSaveSplitImage ;;;
      paths <- renderGo imagePath outputDir rest ;;
      ret (filepath_Abs env outputPath :: paths)
  end.

Definition addFileToZip (zipFile filePath : string) : M unit :=
  call (ZipEntry zipFile (filepath_Base env filePath) filePath) ;;;
  orFail (zip_add env filePath) FailedToAddFileToZip.

(** "Add each split image to the zip file"; the result is [images]. *)
Fixpoint zipLoop (p : Processor) (zipFile : string) (chunkPaths : list string)
    : M (list string) :=
  match chunkPaths with
  | [] => ret []
  | imagePath :: rest =>
      addFileToZip zipFile imagePath ;;;
      images <- zipLoop p zipFile rest ;;
      ret (filepath_Rel env (OutputBaseDir p) imagePath :: images)
  end.

Definition processImageWithGo (p : Processor)
    (imagePath outputDir imagesPrefix : string) (requestedWidth maxImages : Z)
    : M ImageResponse :=
  orFail (os_Open env imagePath) FailedToOpenImageFile ;;;
  match image_Decode env imagePath with
  | None => fail FailedToDecodeImage
  | Some (originalWidth, totalHeight) =>
      match Go.splitCount totalHeight (MaxHeight p) maxImages with
      | None => panic
      | Some splitCount =>
          chunkPaths <-
            renderGo imagePath outputDir
              (map (Go.chunk originalWidth totalHeight (MaxHeight p)
                             requestedWidth imagesPrefix)
                   (loopIndices splitCount)) ;;
          let zipFileName := filepath_Join env outputDir (imagesPrefix ++ ".zip") in
          call (CreateFile zipFileName) ;;;
          orFail (os_Create env zipFileName) Go_FailedToCreateZipFile ;;;
          images <- zipLoop p zipFileName chunkPaths ;;
          orFail (zipWriter_Close env zipFileName) FailedToCloseZipWriter ;;;
          let absZipPath := filepath_Abs env zipFileName in
          ret {| Status := "success";
                 Message := "Successfully split image into "
                            ++ Sprintf_d splitCount
                            ++ " parts and created zip file";
                 ZipURL := filepath_Rel env (OutputBaseDir p) absZipPath;
                 Images := images |}
      end
  end.

Definition ProcessImage (p : Processor) (url imagesPrefix : string)
    (width maxImages : Z) : M ImageResponse :=
  let outputBaseDir := OutputBaseDir p in
  let timestamp := Sprintf_d (time_Now_Unix env) in
  let outputDir := filepath_Join env outputBaseDir timestamp in
  call (MkdirAll outputDir) ;;;
  orFail (os_MkdirAll env outputDir) FailedToCreateOutputDirectory ;;;
  let tempImagePath := filepath_Join env outputDir "original_image" in
  let fileExt := if hasPngSuffix url then ".png" else ".jpg" in
  let tempImagePath := tempImagePath ++ fileExt in
  (if UseCLI p then downloadImageWithCurl url tempImagePath
   else downloadImage url tempImagePath) ;;;
  if UseCLI p
  then processImageWithCLI p tempImagePath outputDir imagesPrefix width maxImages
  else processImageWithGo p tempImagePath outputDir imagesPrefix width maxImages.

End Pipeline.

(** ** The processor [main] calls

    [handleSplitImage] calls [processor.ProcessImage] with five arguments,
    the last being [req.CreateZip].  The source tree holds the package in the
    revision before the flag (the four-parameter functions above), so the
    three functions that carry the flag are modelled here.  Fetching,
    probing, planning and rendering are those of the source and are reused
    as they are; only the archive step depends on the flag. *)

Module WithZipFlag.

Section Pipeline.

Variable env : Env.

(** Modelled from the spec: [processImageWithGo] with the archive flag, which
    is missing from the source tree.  After rendering, "If archiving
    requested, archive all rendered chunks; else omit the archive from the
    result": with the flag the function ends as the source does; without it
    no archive is made, [zipUrl] is "empty if not created" and [images] are
    the "chunk paths relative to storage root, in order".  The specification
    asks of the message only that it includes the chunk count. *)
Definition processImageWithGo (p : Processor)
    (imagePath outputDir imagesPrefix : string) (requestedWidth maxImages : Z)
    (createZip : bool) : M ImageResponse :=
  orFail (os_Open env imagePath) FailedToOpenImageFile ;;;
  match image_Decode env imagePath with
  | None => fail FailedToDecodeImage
  | Some (originalWidth, totalHeight) =>
      match Go.splitCount totalHeight (MaxHeight p) maxImages with
      | None => panic
      | Some splitCount =>
          chunkPaths <-
            renderGo env imagePath outputDir
              (map (Go.chunk originalWidth totalHeight (MaxHeight p)
                             requestedWidth imagesPrefix)
                   (loopIndices splitCount)) ;;
          if createZip then
            let zipFileName := filepath_Join env outputDir (imagesPrefix ++ ".zip") in
            call (CreateFile zipFileName) ;;;
            orFail (os_Create env zipFileName) Go_FailedToCreateZipFile ;;;
            images <- zipLoop env p zipFileName chunkPaths ;;
            orFail (zipWriter_Close env zipFileName) FailedToCloseZipWriter ;;;
            let absZipPath := filepath_Abs env zipFileName in
            ret {| Status := "success";
                   Message := "Successfully split image into "
                              ++ Sprintf_d splitCount
                              ++ " parts and created zip file";
                   ZipURL := filepath_Rel env (OutputBaseDir p) absZipPath;
                   Images := images |}
          else
            ret {| Status := "success";
                   Message := "Successfully split image into "
                              ++ Sprintf_d splitCount ++ " parts";
                   ZipURL := "";
                   Images := map (filepath_Rel env (OutputBaseDir p)) chunkPaths |}
      end
  end.

(** Modelled from the spec: [processImageWithCLI] with the archive flag, which
    is missing from the source tree; the archive step is as in
    [processImageWithGo] above, with the [zip] command of the source. *)
Definition processImageWithCLI (p : Processor)
    (imagePath outputDir imagesPrefix : string) (requestedWidth maxImages : Z)
    (createZip : bool) : M ImageResponse :=
  call (Exec "vipsheader" [imagePath]) ;;;
  let '(ok, output) := CombinedOutput env "vipsheader" [imagePath] in
  orFail ok FailedToGetImageDimensions ;;;
  match parseVipsheader output with
  | inl e => fail e
  | inr (width, totalHeight) =>
      match CLI.splitCount totalHeight (MaxHeight p) maxImages with
      | None => panic
      | Some splitCount =>
          chunkPaths <-
            renderCLI env imagePath outputDir
              (map (CLI.chunk width totalHeight (MaxHeight p) requestedWidth
                              imagesPrefix)
                   (loopIndices splitCount)) ;;
          let images := map (filepath_Rel env (OutputBaseDir p)) chunkPaths in
          if createZip then
            let zipFileName := filepath_Join env outputDir (imagesPrefix ++ ".zip") in
            let zipArgs := "-j" :: zipFileName :: chunkPaths in
            call (Exec "zip" zipArgs) ;;;
            orFail (fst (CombinedOutput env "zip" zipArgs)) CLI_FailedToCreateZipFile ;;;
            let absZipPath := filepath_Abs env zipFileName in
            ret {| Status := "success";
                   Message := "Successfully split image into "
                              ++ Sprintf_d splitCount
                              ++ " parts and created zip file using CLI tools";
                   ZipURL := filepath_Rel env (OutputBaseDir p) absZipPath;
                   Images := images |}
          else
            ret {| Status := "success";
                   Message := "Successfully split image into "
                              ++ Sprintf_d splitCount ++ " parts using CLI tools";
                   ZipURL := "";
                   Images := images |}
      end
  end.

(** Modelled from the spec: [Processor.ProcessImage] with the fifth parameter
    that [handleSplitImage] passes, which is missing from the source tree.
    The working directory, the extension and the fetch are those of the
    source; the flag is handed to the strategy selected by [UseCLI]. *)
Definition ProcessImage (p : Processor) (url imagesPrefix : string)
    (width maxImages : Z) (createZip : bool) : M ImageResponse :=
  let outputBaseDir := OutputBaseDir p in
  let timestamp := Sprintf_d (time_Now_Unix env) in
  let outputDir := filepath_Join env outputBaseDir timestamp in
  call (MkdirAll outputDir) ;;;
  orFail (os_MkdirAll env outputDir) FailedToCreateOutputDirectory ;;;
  let tempImagePath := filepath_Join env outputDir "original_image" in
  let fileExt := if hasPngSuffix url then ".png" else ".jpg" in
  let tempImagePath := tempImagePath ++ fileExt in
  (if UseCLI p then downloadImageWithCurl env url tempImagePath
   else downloadImage env url tempImagePath) ;;;
  if UseCLI p
  then processImageWithCLI p tempImagePath outputDir imagesPrefix width maxImages
         createZip
  else processImageWithGo p tempImagePath outputDir imagesPrefix width maxImages
         createZip.

End Pipeline.

End WithZipFlag.

(** ** Package [main]: the request handler *)

Record config : Type := {
  port : Z;
  urlHost : string;
  filePath : string;
  username : string;
  password : string;
  maxHeight : Z;
  useCLI : bool
}.

Record ImageRequest : Type := {
  URL : string;
  ImagesPrefix : string;
  Width : Z;
  MaxImages : Z;
  CreateZip : bool
}.

(** What [apiResponse] encodes. *)
Inductive ApiMessage : Type :=
| ErrorMessage (text : string)
| ErrorOf (e : Error)                  (* [err.Error()] *)
| Result (r : ImageResponse).

Fixpoint containsByte (s : string) (c : ascii) : bool :=
  match s with
  | "" => false
  | String a r => Ascii.eqb a c || containsByte r c
  end.

(** ** UTF-8: [for range] over a string and [strings.ContainsRune]

    [containsOnlyAllowedChars] ranges over the runes of its argument and
    looks each up with [strings.ContainsRune]; both read the string as
    UTF-8, with the decoder of [unicode/utf8]. *)

Module utf8.

Definition RuneError : Z := 65533.     (* U+FFFD *)
Definition RuneSelf : Z := 128.
Definition MaxRune : Z := 1114111.     (* U+10FFFF *)
Definition surrogateMin : Z := 55296.  (* 0xD800 *)
Definition surrogateMax : Z := 57343.  (* 0xDFFF *)

Definition t2 : Z := 192.              (* 0b11000000 *)
Definition t3 : Z := 224.              (* 0b11100000 *)
Definition t4 : Z := 240.              (* 0b11110000 *)
Definition tx : Z := 128.              (* 0b10000000 *)
Definition maskx : Z := 63.            (* 0b00111111 *)
Definition mask2 : Z := 31.            (* 0b00011111 *)
Definition mask3 : Z := 15.            (* 0b00001111 *)
Definition mask4 : Z := 7.             (* 0b00000111 *)
Definition rune2Max : Z := 2047.       (* 1<<11 - 1 *)
Definition rune3Max : Z := 65535.      (* 1<<16 - 1 *)
Definition locb : Z := 128.            (* 0b10000000 *)
Definition hicb : Z := 191.            (* 0b10111111 *)

(** The entries of the table [first]: [xx] an invalid first byte, [as_] an
    ASCII byte, otherwise the size in the low bits and the index into
    [acceptRanges] in the high ones. *)
Definition xx : Z := 241.              (* 0xF1 *)
Definition as_ : Z := 240.             (* 0xF0 *)
Definition s1 : Z := 2.                (* 0x02 *)
Definition s2 : Z := 19.               (* 0x13 *)
Definition s3 : Z := 3.                (* 0x03 *)
Definition s4 : Z := 35.               (* 0x23 *)
Definition s5 : Z := 52.               (* 0x34 *)
Definition s6 : Z := 4.                (* 0x04 *)
Definition s7 : Z := 68.               (* 0x44 *)

(** The table [first], by the ranges of its 256 entries. *)
Definition first (b : Z) : Z :=
  if b <? 128 then as_            (* 0x00-0x7F *)
  else if b <? 194 then xx        (* 0x80-0xC1 *)
  else if b <? 224 then s1        (* 0xC2-0xDF *)
  else if b =? 224 then s2        (* 0xE0 *)
  else if b <? 237 then s3        (* 0xE1-0xEC *)
  else if b =? 237 then s4        (* 0xED *)
  else if b <? 240 then s3        (* 0xEE-0xEF *)
  else if b =? 240 then s5        (* 0xF0 *)
  else if b <? 244 then s6        (* 0xF1-0xF3 *)
  else if b =? 244 then s7        (* 0xF4 *)
  else xx.                        (* 0xF5-0xFF *)

(** [acceptRanges]: the bounds [lo], [hi] of the second byte. *)
Definition acceptRanges (i : Z) : Z * Z :=
  if i =? 0 then (locb, hicb)
  else if i =? 1 then (160, hicb)
  else if i =? 2 then (locb, 159)
  else if i =? 3 then (144, hicb)
  else if i =? 4 then (locb, 143)
  else (0, 0).

(** [s[i]]; every index below is guarded by a test of [len(s)]. *)
Definition byteAt (s : string) (i : nat) : Z :=
  match String.get i s with
  | Some c => byteOf c
  | None => 0
  end.

(** [utf8.DecodeRuneInString]: the rune at the front of [s] and its width in
    bytes; [(RuneError, 1)] for a malformed encoding. *)
Definition DecodeRuneInString (s : string) : Z * nat :=
  let n := Z.of_nat (String.length s) in
  if n <? 1 then (RuneError, 0%nat)
  else
    let s0 := byteAt s 0 in
    let x := first s0 in
    if as_ <=? x then ((if x =? xx then RuneError else s0), 1%nat)
    else
      let sz := Z.land x 7 in
      let accept := acceptRanges (Z.shiftr x 4) in
      if n <? sz then (RuneError, 1%nat)
      else
        let s1 := byteAt s 1 in
        if (s1 <? fst accept) || (snd accept <? s1) then (RuneError, 1%nat)
        else if sz <=? 2 then
          (Z.lor (Z.shiftl (Z.land s0 mask2) 6) (Z.land s1 maskx), 2%nat)
        else
          let s2 := byteAt s 2 in
          if (s2 <? locb) || (hicb <? s2) then (RuneError, 1%nat)
          else if sz <=? 3 then
            (Z.lor (Z.lor (Z.shiftl (Z.land s0 mask3) 12)
                          (Z.shiftl (Z.land s1 maskx) 6))
                   (Z.land s2 maskx), 3%nat)
          else
            let s3 := byteAt s 3 in
            if (s3 <? locb) || (hicb <? s3) then (RuneError, 1%nat)
            else
              (Z.lor (Z.lor (Z.lor (Z.shiftl (Z.land s0 mask4) 18)
                                   (Z.shiftl (Z.land s1 maskx) 12))
                            (Z.shiftl (Z.land s2 maskx) 6))
                     (Z.land s3 maskx), 4%nat).

(** [s[n:]] *)
Fixpoint drop (n : nat) (s : string) : string :=
  match n, s with
  | O, _ => s
  | S n', String _ r => drop n' r
  | S _, "" => ""
  end.

(** The runes that [for _, r := range s] yields, in order.  Each step takes
    the rune at the front and moves on by its width; a width is at least one
    byte, so [fuel] bytes of fuel serve a string of [fuel] bytes. *)
Fixpoint rangeRunes (fuel : nat) (s : string) : list Z :=
  match fuel with
  | O => []
  | S fuel' =>
      match s with
      | "" => []
      | _ =>
          let '(r, width) := DecodeRuneInString s in
          r :: rangeRunes fuel' (drop width s)
      end
  end.

Definition runes (s : string) : list Z := rangeRunes (String.length s) s.

(** [utf8.ValidRune] *)
Definition ValidRune (r : Z) : bool :=
  if (0 <=? r) && (r <? surrogateMin) then true
  else if (surrogateMax <? r) && (r <=? MaxRune) then true
  else false.

(** The conversion [byte(r)] of an integer. *)
Definition byte (r : Z) : ascii := ascii_of_N (Z.to_N (r mod 256)).

(** [string(r)]: the UTF-8 encoding of [r], that of [RuneError] for a rune
    that is not valid. *)
Definition runeString (r : Z) : string :=
  if (0 <=? r) && (r <? RuneSelf) then String (byte r) ""
  else if (0 <=? r) && (r <=? rune2Max) then
    String (byte (Z.lor t2 (byteOf (byte (Z.shiftr r 6)))))
   (String (byte (Z.lor tx (Z.land (byteOf (byte r)) maskx))) "")
  else if negb (ValidRune r) then
    String (byte 239) (String (byte 191) (String (byte 189) ""))
  else if r <=? rune3Max then
    String (byte (Z.lor t3 (byteOf (byte (Z.shiftr r 12)))))
   (String (byte (Z.lor tx (Z.land (byteOf (byte (Z.shiftr r 6))) maskx)))
   (String (byte (Z.lor tx (Z.land (byteOf (byte r)) maskx))) ""))
  else
    String (byte (Z.lor t4 (byteOf (byte (Z.shiftr r 18)))))
   (String (byte (Z.lor tx (Z.land (byteOf (byte (Z.shiftr r 12))) maskx)))
   (String (byte (Z.lor tx (Z.land (byteOf (byte (Z.shiftr r 6))) maskx)))
   (String (byte (Z.lor tx (Z.land (byteOf (byte r)) maskx))) ""))).

End utf8.

(** [strings.Contains]: [substr] occurs in [s]. *)
Fixpoint Contains (s substr : string) : bool :=
  hasPrefix s substr
  || match s with
     | "" => false
     | String _ r => Contains r substr
     end.

(** [strings.ContainsRune], that is [strings.IndexRune(s, r) >= 0]: a byte
    search for an ASCII rune, a search among the decoded runes for
    [RuneError], never a rune that is not valid, and otherwise a search for
    the encoding of [r]. *)
Definition ContainsRune (s : string) (r : Z) : bool :=
  if (0 <=? r) && (r <? utf8.RuneSelf) then containsByte s (utf8.byte r)
  else if r =? utf8.RuneError then existsb (Z.eqb utf8.RuneError) (utf8.runes s)
  else if negb (utf8.ValidRune r) then false
  else Contains s (utf8.runeString r).

(** A string of ASCII bytes only. *)
Fixpoint isASCII (s : string) : bool :=
  match s with
  | "" => true
  | String c r => (byteOf c <? utf8.RuneSelf) && isASCII r
  end.

(** The loop of [containsOnlyAllowedChars] over the runes of [s]. *)
Fixpoint allAllowed (chars : list Z) (allowed : string) : bool :=
  match chars with
  | [] => true
  | char :: rest =>
      if negb (ContainsRune allowed char) then false
      else allAllowed rest allowed
  end.

(** [containsOnlyAllowedChars] *)
Definition containsOnlyAllowedChars (s allowed : string) : bool :=
  allAllowed (utf8.runes s) allowed.

(** The same test read byte by byte: every byte of [s] occurs in [allowed]. *)
Fixpoint onlyBytesOf (s allowed : string) : bool :=
  match s with
  | "" => true
  | String char r =>
      if negb (containsByte allowed char) then false
      else onlyBytesOf r allowed
  end.

(** The string of the given bytes. *)
Definition bytes (l : list Z) : string :=
  fold_right (fun b s => String (utf8.byte b) s) "" l.

(** ASCII letters, digits and underscore. *)
Definition isWordByte (c : ascii) : bool :=
  let b := byteOf c in
  ((97 <=? b) && (b <=? 122)) || ((65 <=? b) && (b <=? 90))
  || ((48 <=? b) && (b <=? 57)) || (b =? 95).

Definition allowedPrefixChars : string :=
  "abcdefghijklmnopqrstuvwxyzABCDEFGHIJKLMNOPQRSTUVWXYZ0123456789_".

(** [handleSplitImage], from the request method and the outcome of decoding
    the JSON body ([None]: the decoder failed).  The result is the status
    code and message written by [apiResponse].  [ProcessImage] is called
    with its five arguments, [req.CreateZip] last. *)
Definition handleSplitImage (cfg : config) (env : Env)
    (method : string) (body : option ImageRequest) : M (Z * ApiMessage) :=
  if negb (String.eqb method "POST") then
    ret (405, ErrorMessage "Method not allowed")
  else
    match body with
    | None => ret (400, ErrorMessage "Invalid JSON")
    | Some req =>
        if String.eqb (URL req) "" then
          ret (400, ErrorMessage "URL is required")
        else if MaxImages req <? 0 then
          ret (400, ErrorMessage "max_images must be a positive integer")
        else if negb (containsOnlyAllowedChars (ImagesPrefix req) allowedPrefixChars) then
          ret (400, ErrorMessage "images_prefix contains invalid characters")
        else
          let imageURL := urlHost cfg ++ URL req in
          let processor := {| OutputBaseDir := filePath cfg;
                              MaxHeight := maxHeight cfg;
                              UseCLI := useCLI cfg |} in
          match WithZipFlag.ProcessImage env processor imageURL (ImagesPrefix req)
                  (Width req) (MaxImages req) (CreateZip req) with
          | (t, Ok result) => (t, Ok (200, Result result))
          | (t, Fail err) => (t, Ok (500, ErrorOf err))
          | (t, Panic) => (t, Panic)
          end
    end.

(** ** A concrete host

    Used to run the model on examples: storage root [/data/], clock at
    1700000000, every call succeeds, and the source is a 2000x12000 JPEG. *)

Definition endsWithSlash (s : string) : bool := HasSuffix s "/".

Fixpoint dropPrefix (s prefix : string) : option string :=
  match prefix, s with
  | "", _ => Some s
  | String p prefix', String c s' =>
      if Ascii.eqb c p then dropPrefix s' prefix' else None
  | String _ _, "" => None
  end.

Definition sampleEnv : Env := {|
  time_Now_Unix := 1700000000;
  filepath_Join := fun dir name =>
    if endsWithSlash dir then dir ++ name else dir ++ "/" ++ name;
  filepath_Abs := fun path => path;
  filepath_Rel := fun base path =>
    match dropPrefix path base with Some rest => rest | None => "" end;
  filepath_Base := fun path => last (Split path "/") "";
  os_MkdirAll := fun _ => true;
  http_NewRequest := fun _ => true;
  client_Do := fun _ => Response 200 "<image bytes>";
  os_Create := fun _ => true;
  io_Copy := fun _ => true;
  CombinedOutput := fun name _ =>
    if String.eqb name "vipsheader"
    then (true, "original_image.jpg: 2000x12000 uchar, 3 bands, srgb, jpegload")
    else (true, "");
  os_Stat := fun _ => Some 4096;
  os_Open := fun _ => true;
  image_Decode := fun _ => Some (2000, 12000);
  Encode := fun _ => true;
  zip_add := fun _ => true;
  zipWriter_Close := fun _ => true
|}.

(** The same host, in front of a server that answers 404 with a short text
    body. *)
Definition notFoundEnv : Env := {|
  time_Now_Unix := time_Now_Unix sampleEnv;
  filepath_Join := filepath_Join sampleEnv;
  filepath_Abs := filepath_Abs sampleEnv;
  filepath_Rel := filepath_Rel sampleEnv;
  filepath_Base := filepath_Base sampleEnv;
  os_MkdirAll := os_MkdirAll sampleEnv;
  http_NewRequest := http_NewRequest sampleEnv;
  client_Do := fun _ => Response 404 "404 page not found";
  os_Create := os_Create sampleEnv;
  io_Copy := io_Copy sampleEnv;
  CombinedOutput := CombinedOutput sampleEnv;
  os_Stat := os_Stat sampleEnv;
  os_Open := os_Open sampleEnv;
  image_Decode := fun _ => None;
  Encode := Encode sampleEnv;
  zip_add := zip_add sampleEnv;
  zipWriter_Close := zipWriter_Close sampleEnv
|}.

Definition sampleConfig (cli : bool) : config := {|
  port := 4000;
  urlHost := "https://example.com/";
  filePath := "/data/";
  username := "";
  password := "";
  maxHeight := 5000;
  useCLI := cli
|}.

Definition sampleRequest (prefix : string) (zip : bool) : ImageRequest := {|
  URL := "images/tall-image.jpg";
  ImagesPrefix := prefix;
  Width := 0;
  MaxImages := 0;
  CreateZip := zip
|}.

(** ** Package [main]: start-up checks, authentication, routing *)

(** What [os.Stat] answers: the file's mode bits and whether it is a
    directory, "does not exist", or another error. *)
Record FileInfo : Type := {
  Mode : Z;
  IsDir : bool
}.

Inductive StatResult : Type :=
| StatOk (info : FileInfo)
| StatNotExist
| StatFailed.

(** [FileMode.Perm]: the permission bits [m & 0o777]. *)
Definition ModePerm : Z := 511.
Definition Perm (m : Z) : Z := Z.land m ModePerm.

Section Startup.

Variable stat : string -> StatResult.

Definition checkIfFileExists (file : string) : bool :=
  match stat file with
  | StatNotExist => false
  | _ => true
  end.

Definition checkIfIsDirectory (file : string) : bool :=
  match stat file with
  | StatOk fileInfo => IsDir fileInfo
  | _ => false
  end.

Definition checkIfIsWritable (file : string) : bool :=
  match stat file with
  | StatOk fileInfo => negb (Z.land (Perm (Mode fileInfo)) (Z.shiftl 1 2) =? 0)
  | _ => false
  end.

(** The checks of [main] on the parsed flags: the messages handed to
    [logger.PrintFatal], in program order. *)
Definition startupFatals (cfg : config) : list string :=
  ((if String.eqb (urlHost cfg) "" || String.eqb (filePath cfg) ""
    then ["url host and file path cannot be empty"] else [])
   ++ (if Bool.eqb (hasPrefix (urlHost cfg) "http://"
                    || hasPrefix (urlHost cfg) "https://") false
       then ["url host must start with http:// or https://"] else [])
   ++ (if Bool.eqb (HasSuffix (urlHost cfg) "/") false
       then ["url host must end with a slash"] else [])
   ++ (if negb (HasSuffix (filePath cfg) "/" && hasPrefix (filePath cfg) "/")
       then ["file path must start and end with a slash"] else [])
   ++ (if negb (checkIfFileExists (filePath cfg))
       then ["file path does not exist"] else [])
   ++ (if negb (checkIfIsDirectory (filePath cfg))
       then ["file path is not a directory"] else [])
   ++ (if negb (checkIfIsWritable (filePath cfg))
       then ["file path is not writable"] else []))%list.

End Startup.

(** What is written to the client: the plain-text challenge of [basicAuth]
    (sent with a [WWW-Authenticate] header), or a JSON message of
    [apiResponse]. *)
Inductive Reply : Type :=
| Challenge (status : Z) (text : string)
| Api (status : Z) (message : ApiMessage).

(** [basicAuth(next)], from the outcome of [r.BasicAuth()] ([None]: no
    usable credentials in the request).  [subtle.ConstantTimeCompare] gives
    1 exactly on equal byte strings. *)
Definition basicAuth (cfg : config) (next : M Reply)
    (credentials : option (string * string)) : M Reply :=
  match credentials with
  | None => ret (Challenge 401 "Unauthorized")
  | Some (username', password') =>
      let usernameMatch := String.eqb username' (username cfg) in
      let passwordMatch := String.eqb password' (password cfg) in
      if negb usernameMatch || negb passwordMatch
      then ret (Challenge 401 "Unauthorized")
      else next
  end.

Definition apiReply (m : M (Z * ApiMessage)) : M Reply :=
  bind m (fun '(status, message) => ret (Api status message)).

(** The handler [main] registers for [/split-image]: behind [basicAuth] when
    both a user name and a password are configured, bare otherwise. *)
Definition splitImageRoute (cfg : config) (env : Env)
    (credentials : option (string * string))
    (method : string) (body : option ImageRequest) : M Reply :=
  let handler := apiReply (handleSplitImage cfg env method body) in
  if negb (String.eqb (username cfg) "") && negb (String.eqb (password cfg) "")
  then basicAuth cfg handler credentials
  else handler.

(** ** The dimension parser of the [identify] revision

    The earlier [processImageWithCLI] of [main] reads the two numbers
    printed by [identify -format "%w %h"]. *)

Inductive IdentifyError : Type :=
| UnexpectedOutputFromIdentify
| Identify_FailedToParseImageWidth
| Identify_FailedToParseImageHeight.

Definition parseIdentify (output : string) : IdentifyError + (Z * Z) :=
  match Split (TrimSpace output) " " with
  | [d0; d1] =>
      match Atoi d0 with
      | None => inl Identify_FailedToParseImageWidth
      | Some width =>
          match Atoi d1 with
          | None => inl Identify_FailedToParseImageHeight
          | Some totalHeight => inr (width, totalHeight)
          end
      end
  | _ => inl UnexpectedOutputFromIdentify
  end.

(** ** Reading traces *)

Definition isExec (ev : Event) : bool :=
  match ev with Exec _ _ => true | _ => false end.

(** A run of one of the four tools of the external strategy. *)
Definition isTool (ev : Event) : bool :=
  match ev with
  | Exec name _ =>
      String.eqb name "curl" || String.eqb name "vipsheader"
      || String.eqb name "vips" || String.eqb name "zip"
  | _ => false
  end.


Definition commands (t : list Event) : list string :=
  flat_map (fun ev => match ev with Exec name _ => [name] | _ => [] end) t.


(** A fetch: the GET of [downloadImage] or the [curl] of
    [downloadImageWithCurl]. *)
Definition isFetch (ev : Event) : bool :=
  match ev with
  | HttpGet _ => true
  | Exec name _ => String.eqb name "curl"
  | _ => false
  end.

(** Number of fetches in a trace. *)
Definition fetches (t : list Event) : nat := List.length (filter isFetch t).

(** An encoding event writes the given format into a file named [.jpg]. *)
Definition encodesAs (png : bool) (ev : Event) : Prop :=
  match ev with
  | EncodeChunk _ flag c => flag = png /\ HasSuffix (fileName c) ".jpg" = true
  | _ => True
  end.

(** The sample host without a network: every request fails in transport. *)
Definition offlineEnv : Env := {|
  time_Now_Unix := time_Now_Unix sampleEnv;
  filepath_Join := filepath_Join sampleEnv;
  filepath_Abs := filepath_Abs sampleEnv;
  filepath_Rel := filepath_Rel sampleEnv;
  filepath_Base := filepath_Base sampleEnv;
  os_MkdirAll := os_MkdirAll sampleEnv;
  http_NewRequest := http_NewRequest sampleEnv;
  client_Do := fun _ => TransportError;
  os_Create := os_Create sampleEnv;
  io_Copy := io_Copy sampleEnv;
  CombinedOutput := CombinedOutput sampleEnv;
  os_Stat := os_Stat sampleEnv;
  os_Open := os_Open sampleEnv;
  image_Decode := fun _ => None;
  Encode := Encode sampleEnv;
  zip_add := zip_add sampleEnv;
  zipWriter_Close := zipWriter_Close sampleEnv
|}.

Definition sampleProcessor (cli : bool) : Processor :=
  {| OutputBaseDir := "/data/"; MaxHeight := 5000; UseCLI := cli |}.

(** An ASCII byte that is not white space: [strings.TrimSpace] stops at it. *)
Definition plainByte (c : ascii) : bool :=
  (byteOf c <? 128) && negb (isAsciiSpace c).

(** The last byte of a non-empty string is plain. *)
Definition endsPlain (s : string) : Prop :=
  exists c r, reverse s = String c r /\ plainByte c = true.

Definition sampleAuthConfig : config := {|
  port := 4000;
  urlHost := "https://example.com/";
  filePath := "/data/";
  username := "splitter";
  password := "s3cret";
  maxHeight := 5000;
  useCLI := false
|}.

(** A storage root readable by everybody and writable by nobody. *)
Definition readOnlyRoot (_ : string) : StatResult :=
  StatOk {| Mode := 365; IsDir := true |}.

(** Made of ASCII white space only. *)
Fixpoint allSpace (s : string) : bool :=
  match s with
  | "" => true
  | String c r => isAsciiSpace c && allSpace r
  end.

(** ** The pixel copy of [processImageWithGo] *)

(** The values of [y] in [for y := lo; y < hi; y++]. *)
Definition loopRange (lo hi : Z) : list Z :=
  map (fun k => lo + Z.of_nat k) (seq 0 (Z.to_nat (hi - lo))).

(** "Create subimage": the calls [subImg.Set(x, y-startY, img.At(srcX, y))]
    of the two nested loops, in order, as triples (x, y-startY, colour);
    [At] is [img.At]. *)
Definition copyPixels {Color : Type} (At : Z -> Z -> Color)
    (width startY endY : Z) (cropWidth : bool) : list (Z * Z * Color) :=
  flat_map
    (fun y =>
       map (fun x => (x, GoInt.sub y startY, At (Go.srcX cropWidth x) y))
           (loopRange 0 width))
    (loopRange startY endY).

(** * Properties *)

Example scenario_three_chunks :
  option_map yRanges (Go.plan 2000 12000 5000 0 0 "page")
  = Some [(0, 5000); (5000, 10000); (10000, 12000)].
Proof. reflexivity. Qed.

Example scenario_two_chunks :
  option_map yRanges (CLI.plan 2000 12000 5000 0 2 "page")
  = Some [(0, 5000); (5000, 10000)].
Proof. reflexivity. Qed.

Example scenario_names :
  option_map fileNames (Go.plan 2000 55000 5000 1500 0 "page")
  = Some ["page_01.jpg"; "page_02.jpg"; "page_03.jpg"; "page_04.jpg";
          "page_05.jpg"; "page_06.jpg"; "page_07.jpg"; "page_08.jpg";
          "page_09.jpg"; "page_10.jpg"; "page_11.jpg"].
Proof. reflexivity. Qed.

Example scenario_vipsheader :
  parseVipsheader "cteam_01.jpg: 1170x5000 uchar, 3 bands, srgb, jpegload"
  = inr (1170, 5000).
Proof. reflexivity. Qed.

(** ** Integers and loops *)

Lemma pow63 : 2 ^ 63 = 9223372036854775808. Proof. reflexivity. Qed.
Lemma pow64 : 2 ^ 64 = 18446744073709551616. Proof. reflexivity. Qed.

Ltac int_consts :=
  unfold GoInt.in_range, GoInt.min_int, GoInt.max_int in *;
  rewrite ?pow63, ?pow64 in *.

Lemma wrap_in_range z : GoInt.in_range z -> GoInt.wrap z = z.
Proof.
  unfold GoInt.wrap. int_consts. intros H.
  rewrite Z.mod_small; lia.
Qed.

Lemma wrap_range z : GoInt.in_range (GoInt.wrap z).
Proof.
  unfold GoInt.wrap. int_consts.
  pose proof (Z.mod_pos_bound (z + 9223372036854775808) 18446744073709551616).
  lia.
Qed.

Lemma loopIndices_length n : List.length (loopIndices n) = Z.to_nat n.
Proof. unfold loopIndices. now rewrite length_map, length_seq. Qed.

Lemma loopIndices_nth n k :
  (k < Z.to_nat n)%nat -> nth_error (loopIndices n) k = Some (Z.of_nat k).
Proof.
  intros H. unfold loopIndices.
  rewrite nth_error_map, nth_error_seq.
  destruct (Nat.ltb_spec k (Z.to_nat n)); [reflexivity | lia].
Qed.

Lemma loopIndices_In n i : In i (loopIndices n) <-> 0 <= i < n.
Proof.
  unfold loopIndices. rewrite in_map_iff. split.
  - intros (k & <- & Hk). apply in_seq in Hk. lia.
  - intros H. exists (Z.to_nat i). split; [lia|]. apply in_seq. lia.
Qed.

Lemma CLI_splitCount_eq h mh mi : CLI.splitCount h mh mi = Go.splitCount h mh mi.
Proof. reflexivity. Qed.

Lemma CLI_chunk_eq w h mh rw pfx i :
  CLI.chunk w h mh rw pfx i = Go.chunk w h mh rw pfx i.
Proof.
  unfold CLI.chunk, Go.chunk, CLI.cropDecision, Go.cropDecision.
  destruct ((rw >? 0) && (w >? rw)); reflexivity.
Qed.

Lemma CLI_plan_eq w h mh rw mi pfx :
  CLI.plan w h mh rw mi pfx = Go.plan w h mh rw mi pfx.
Proof.
  unfold CLI.plan, Go.plan. rewrite CLI_splitCount_eq.
  destruct (Go.splitCount h mh mi); [|reflexivity].
  f_equal. apply map_ext. intros i. apply CLI_chunk_eq.
Qed.

Lemma wrap_sub_wrap a b : GoInt.wrap (GoInt.wrap a - b) = GoInt.wrap (a - b).
Proof.
  unfold GoInt.wrap. f_equal.
  replace ((a + 2 ^ 63) mod 2 ^ 64 - 2 ^ 63 - b + 2 ^ 63)
    with ((a + 2 ^ 63) mod 2 ^ 64 - b) by ring.
  rewrite Zminus_mod_idemp_l. f_equal. ring.
Qed.

Lemma ceiling_bounds h mh :
  0 < mh -> mh * ((h + mh - 1) / mh) <= h + mh - 1 < mh * ((h + mh - 1) / mh) + mh.
Proof.
  intros Hmh.
  pose proof (Z.mul_div_le (h + mh - 1) mh Hmh).
  pose proof (Z.mul_succ_div_gt (h + mh - 1) mh Hmh).
  lia.
Qed.

Lemma quo_ceiling h mh :
  0 < h -> 0 < mh -> h + mh - 1 <= GoInt.max_int ->
  GoInt.quo (GoInt.sub (GoInt.add h mh) 1) mh = Some ((h + mh - 1) / mh).
Proof.
  intros Hh Hmh Hmax.
  unfold GoInt.quo, GoInt.sub, GoInt.add.
  destruct (Z.eqb_spec mh 0); [lia|].
  rewrite wrap_sub_wrap.
  pose proof (ceiling_bounds h mh Hmh) as Hc.
  assert (0 <= (h + mh - 1) / mh) by (apply Z.div_pos; lia).
  assert ((h + mh - 1) / mh <= h + mh - 1) by nia.
  rewrite (wrap_in_range (h + mh - 1)) by (int_consts; lia).
  rewrite Z.quot_div_nonneg by lia.
  rewrite wrap_in_range by (int_consts; lia).
  reflexivity.
Qed.

Lemma nth_error_loop {A} (f : Z -> A) n k c :
  nth_error (map f (loopIndices n)) k = Some c <->
  (k < Z.to_nat n)%nat /\ c = f (Z.of_nat k).
Proof.
  rewrite nth_error_map. split.
  - intros H. destruct (nth_error (loopIndices n) k) as [i|] eqn:E; [|discriminate].
    assert (Hk : (k < Z.to_nat n)%nat).
    { rewrite <- loopIndices_length. apply nth_error_Some. congruence. }
    rewrite loopIndices_nth in E by assumption.
    simpl in H. split; [assumption | congruence].
  - intros [Hk ->]. now rewrite loopIndices_nth.
Qed.

(** The rows of iteration [i], when neither product nor sum leaves [int]. *)
Lemma chunk_rows w h mh rw pfx i :
  0 < h -> 0 < mh -> h + mh - 1 <= GoInt.max_int ->
  0 <= i -> i * mh < h ->
  let c := Go.chunk w h mh rw pfx i in
  startY c = i * mh /\ endY c = Z.min (i * mh + mh) h.
Proof.
  intros Hh Hmh Hmax Hi Hlt. unfold Go.chunk.
  destruct (Go.cropDecision w rw) as [width cropWidth]. simpl.
  unfold GoInt.mul, GoInt.add.
  assert (0 <= i * mh) by nia.
  rewrite (wrap_in_range (i * mh)) by (int_consts; lia).
  rewrite (wrap_in_range (i * mh + mh)) by (int_consts; lia).
  split; [reflexivity|].
  destruct (Z.gtb_spec (i * mh + mh) h); lia.
Qed.

Lemma splitCount_unlimited h mh :
  0 < h -> 0 < mh -> h + mh - 1 <= GoInt.max_int ->
  Go.splitCount h mh 0 = Some ((h + mh - 1) / mh).
Proof.
  intros. unfold Go.splitCount. rewrite quo_ceiling by assumption. reflexivity.
Qed.

Lemma splitCount_limited h mh mi :
  0 < h -> 0 < mh -> h + mh - 1 <= GoInt.max_int ->
  0 < mi -> mi < (h + mh - 1) / mh ->
  Go.splitCount h mh mi = Some mi.
Proof.
  intros. unfold Go.splitCount. rewrite quo_ceiling by assumption.
  destruct (Z.gtb_spec mi 0); [|lia].
  destruct (Z.gtb_spec ((h + mh - 1) / mh) mi); [reflexivity|lia].
Qed.

(** C1, as amended.  For every height > 0 and maxChunkHeight > 0 whose sum
    [height + maxChunkHeight - 1] still fits an [int], and without a limit on
    the number of chunks, both strategies plan exactly
    [(height + maxChunkHeight - 1) / maxChunkHeight] chunks; the i-th (from 1)
    covers the rows [(i-1)*maxChunkHeight, min(i*maxChunkHeight, height)), is
    not empty and is at most maxChunkHeight rows high; each chunk starts where
    the one before ends; every row of [0, height) lies in some chunk, no row
    outside does, and no row lies in two chunks. *)
Theorem unlimited_plan_layout :
  forall w h mh rw pfx,
    0 < h -> 0 < mh -> h + mh - 1 <= GoInt.max_int ->
    exists chunks,
      Go.plan w h mh rw 0 pfx = Some chunks /\
      CLI.plan w h mh rw 0 pfx = Some chunks /\
      Z.of_nat (List.length chunks) = (h + mh - 1) / mh /\
      (forall i, 1 <= i <= (h + mh - 1) / mh ->
         exists c, nth_error chunks (Z.to_nat (i - 1)) = Some c /\
           startY c = (i - 1) * mh /\ endY c = Z.min (i * mh) h /\
           startY c < endY c /\ endY c - startY c <= mh) /\
      (forall k c c', nth_error chunks k = Some c ->
           nth_error chunks (S k) = Some c' -> endY c = startY c') /\
      (forall y, 0 <= y < h <-> exists c, In c chunks /\ covers c y) /\
      (forall j k cj ck y, nth_error chunks j = Some cj ->
           nth_error chunks k = Some ck ->
           covers cj y -> covers ck y -> j = k).
Proof.
  intros w h mh rw pfx Hh Hmh Hmax.
  set (count := (h + mh - 1) / mh).
  pose proof (ceiling_bounds h mh Hmh) as Hc. fold count in Hc.
  assert (Hcount : 0 < count) by nia.
  exists (map (Go.chunk w h mh rw pfx) (loopIndices count)).
  assert (Hrows : forall k c,
    nth_error (map (Go.chunk w h mh rw pfx) (loopIndices count)) k = Some c ->
    Z.of_nat k < count /\ startY c = Z.of_nat k * mh /\
    endY c = Z.min (Z.of_nat k * mh + mh) h).
  { intros k c Hk. apply nth_error_loop in Hk as [Hk ->].
    assert (Z.of_nat k < count) by lia. split; [assumption|].
    apply chunk_rows; try assumption; nia. }
  refine (conj _ (conj _ (conj _ (conj _ (conj _ (conj _ _)))))).
  - unfold Go.plan. now rewrite splitCount_unlimited.
  - rewrite CLI_plan_eq. unfold Go.plan. now rewrite splitCount_unlimited.
  - rewrite length_map, loopIndices_length. lia.
  - intros i Hi.
    exists (Go.chunk w h mh rw pfx (Z.of_nat (Z.to_nat (i - 1)))).
    assert (Hn : nth_error (map (Go.chunk w h mh rw pfx) (loopIndices count))
                   (Z.to_nat (i - 1))
                 = Some (Go.chunk w h mh rw pfx (Z.of_nat (Z.to_nat (i - 1))))).
    { apply nth_error_loop. split; [lia | reflexivity]. }
    split; [exact Hn|].
    apply Hrows in Hn as (_ & Hs & He).
    rewrite Hs, He, Z2Nat.id by lia. repeat split; nia.
  - intros k c c' Hk Hk'.
    apply Hrows in Hk as (_ & _ & He). apply Hrows in Hk' as (Hlt & Hs & _).
    rewrite He, Hs. nia.
  - intros y. split.
    { intros [Hy0 Hyh].
    assert (Hq : 0 <= y / mh < count).
    { split; [apply Z.div_pos; lia|]. apply Z.div_lt_upper_bound; nia. }
    pose proof (Z.div_mod y mh ltac:(lia)) as Hdm.
    pose proof (Z.mod_pos_bound y mh Hmh) as Hmod.
    exists (Go.chunk w h mh rw pfx (y / mh)). split.
    + apply in_map. apply loopIndices_In. assumption.
    + unfold covers.
      destruct (chunk_rows w h mh rw pfx (y / mh)) as [Hs He];
        [assumption | assumption | assumption | lia | nia |].
      rewrite Hs, He. nia. }
    intros (c & Hin & Hcov). apply In_nth_error in Hin as [k Hk].
    apply Hrows in Hk as (Hlt & Hs & He). unfold covers in Hcov.
    rewrite Hs, He in Hcov. nia.
  - intros j k cj ck y Hj Hk Hcj Hck.
    apply Hrows in Hj as (_ & Hsj & Hej). apply Hrows in Hk as (_ & Hsk & Hek).
    unfold covers in *. rewrite Hsj, Hej in Hcj. rewrite Hsk, Hek in Hck.
    assert (Z.of_nat j = Z.of_nat k) by nia. lia.
Qed.

Lemma splitCount_le_max h mh mi n :
  Go.splitCount h mh mi = Some n -> n <= GoInt.max_int.
Proof.
  unfold Go.splitCount, GoInt.quo.
  destruct (mh =? 0); [discriminate|].
  set (q := GoInt.wrap _). intros H. injection H as <-.
  assert (Hq : GoInt.in_range q) by apply wrap_range.
  destruct Hq as [_ Hq].
  destruct ((mi >? 0) && (q >? mi)) eqn:E; [|assumption].
  apply andb_prop in E as [_ E]. apply Z.gtb_lt in E. lia.
Qed.

Lemma plan_elements w h mh rw mi pfx chunks :
  Go.plan w h mh rw mi pfx = Some chunks \/ CLI.plan w h mh rw mi pfx = Some chunks ->
  exists n, Go.splitCount h mh mi = Some n /\
            chunks = map (Go.chunk w h mh rw pfx) (loopIndices n).
Proof.
  intros H. assert (Hg : Go.plan w h mh rw mi pfx = Some chunks).
  { destruct H as [H|H]; [assumption | now rewrite <- CLI_plan_eq]. }
  unfold Go.plan in Hg. destruct (Go.splitCount h mh mi) as [n|]; [|discriminate].
  exists n. split; [reflexivity | congruence].
Qed.

Lemma firstn_seq_le n m s : (n <= m)%nat -> firstn n (seq s m) = seq s n.
Proof.
  revert m s. induction n as [|n IH]; intros m s Hle; [reflexivity|].
  destruct m as [|m]; [lia|]. simpl. f_equal. apply IH. lia.
Qed.

(** C2, as amended.  For height, maxChunkHeight > 0 whose sum
    [height + maxChunkHeight - 1] fits an [int]: if requestedMaxChunks > 0 is
    less than the ceiling [(height + maxChunkHeight - 1) / maxChunkHeight],
    both strategies plan exactly requestedMaxChunks chunks, and these are the
    first requestedMaxChunks chunks of the unlimited plan, top to bottom; the
    rows from [requestedMaxChunks * maxChunkHeight] on (there are some) lie in
    no chunk, and the plan is produced without error. *)
Theorem limited_plan_is_prefix :
  forall w h mh rw mi pfx,
    0 < h -> 0 < mh -> h + mh - 1 <= GoInt.max_int ->
    0 < mi -> mi < (h + mh - 1) / mh ->
    exists chunks every,
      Go.plan w h mh rw mi pfx = Some chunks /\
      CLI.plan w h mh rw mi pfx = Some chunks /\
      Go.plan w h mh rw 0 pfx = Some every /\
      chunks = firstn (Z.to_nat mi) every /\
      Z.of_nat (List.length chunks) = mi /\
      (forall i, 1 <= i <= mi ->
         exists c, nth_error chunks (Z.to_nat (i - 1)) = Some c /\
           startY c = (i - 1) * mh /\ endY c = i * mh) /\
      mi * mh < h /\
      (forall y c, mi * mh <= y -> In c chunks -> ~ covers c y).
Proof.
  intros w h mh rw mi pfx Hh Hmh Hmax Hmi Hlt.
  set (count := (h + mh - 1) / mh) in *.
  pose proof (ceiling_bounds h mh Hmh) as Hc. fold count in Hc.
  exists (map (Go.chunk w h mh rw pfx) (loopIndices mi)),
         (map (Go.chunk w h mh rw pfx) (loopIndices count)).
  assert (Hrows : forall k c,
    nth_error (map (Go.chunk w h mh rw pfx) (loopIndices mi)) k = Some c ->
    Z.of_nat k < mi /\ startY c = Z.of_nat k * mh /\ endY c = Z.of_nat k * mh + mh).
  { intros k c Hk. apply nth_error_loop in Hk as [Hk ->].
    assert (Z.of_nat k < mi) by lia. split; [assumption|].
    destruct (chunk_rows w h mh rw pfx (Z.of_nat k)) as [Hs He];
      [assumption | assumption | assumption | lia | nia |].
    rewrite Hs, He. split; [reflexivity | nia]. }
  refine (conj _ (conj _ (conj _ (conj _ (conj _ (conj _ (conj _ _))))))).
  - unfold Go.plan. now rewrite splitCount_limited.
  - rewrite CLI_plan_eq. unfold Go.plan. now rewrite splitCount_limited.
  - unfold Go.plan. now rewrite splitCount_unlimited.
  - unfold loopIndices. rewrite !firstn_map, firstn_seq_le by lia. reflexivity.
  - rewrite length_map, loopIndices_length. lia.
  - intros i Hi.
    exists (Go.chunk w h mh rw pfx (Z.of_nat (Z.to_nat (i - 1)))).
    assert (Hn : nth_error (map (Go.chunk w h mh rw pfx) (loopIndices mi))
                   (Z.to_nat (i - 1))
                 = Some (Go.chunk w h mh rw pfx (Z.of_nat (Z.to_nat (i - 1))))).
    { apply nth_error_loop. split; [lia | reflexivity]. }
    split; [exact Hn|].
    apply Hrows in Hn as (_ & Hs & He).
    rewrite Hs, He, Z2Nat.id by lia. split; ring.
  - nia.
  - intros y c Hy Hin Hcov. apply In_nth_error in Hin as [k Hk].
    apply Hrows in Hk as (Hk & Hs & He). unfold covers in Hcov.
    rewrite Hs, He in Hcov. nia.
Qed.

(** C3.  Whatever the source width and requestedMaxWidth, every planned chunk
    is taken from x-offset 0; its width is requestedMaxWidth when
    [0 < requestedMaxWidth < width] and the full source width otherwise; and
    the pixel copy of the in-process strategy reads source column [x] for
    output column [x]. *)
Theorem width_crop_is_left_aligned :
  forall w h mh rw mi pfx chunks,
    Go.plan w h mh rw mi pfx = Some chunks \/ CLI.plan w h mh rw mi pfx = Some chunks ->
    forall c, In c chunks ->
      xOffset c = 0 /\
      (0 < rw < w -> outWidth c = rw) /\
      (~ 0 < rw < w -> outWidth c = w) /\
      (forall x, GoInt.in_range x -> Go.srcX (snd (Go.cropDecision w rw)) x = x).
Proof.
  intros w h mh rw mi pfx chunks Hplan c Hin.
  apply plan_elements in Hplan as (n & _ & ->).
  apply in_map_iff in Hin as (i & <- & _).
  unfold Go.chunk, Go.cropDecision.
  destruct (Z.gtb_spec rw 0), (Z.gtb_spec w rw); simpl;
    (split; [reflexivity|]); (split; [intros; lia|]); (split; [intros; lia|]);
    intros x Hx; unfold Go.srcX, GoInt.add; rewrite ?Z.add_0_r;
    try reflexivity; now apply wrap_in_range.
Qed.

Lemma digitChar_digit d :
  0 <= d < 10 -> isDigit (digitChar d) = true /\ byteOf (digitChar d) - 48 = d.
Proof.
  intros H.
  assert (E : d = 0 \/ d = 1 \/ d = 2 \/ d = 3 \/ d = 4 \/ d = 5 \/ d = 6 \/
              d = 7 \/ d = 8 \/ d = 9) by lia.
  repeat (destruct E as [-> | E]; [split; reflexivity|]). subst. split; reflexivity.
Qed.

Lemma formatBits_S fuel n acc :
  formatBits (S fuel) n acc
  = if n <? 10 then String (digitChar (n mod 10)) acc
    else formatBits fuel (n / 10) (String (digitChar (n mod 10)) acc).
Proof. reflexivity. Qed.

Lemma parseDigits_cons c r acc :
  parseDigits (String c r) acc
  = if isDigit c then parseDigits r (acc * 10 + (byteOf c - 48)) else None.
Proof. reflexivity. Qed.

(** Reading back the digits [formatBits] writes gives the number. *)
Lemma formatBits_value fuel : forall n acc,
  0 <= n < 10 ^ Z.of_nat fuel ->
  parseDigits (formatBits fuel n acc) 0 = parseDigits acc n.
Proof.
  induction fuel as [|fuel IH]; intros n acc Hn.
  - change (10 ^ Z.of_nat 0) with 1 in Hn. now replace n with 0 by lia.
  - rewrite Nat2Z.inj_succ, Z.pow_succ_r in Hn by lia.
    pose proof (Z.mod_pos_bound n 10 ltac:(lia)) as Hmod.
    pose proof (Z.div_mod n 10 ltac:(lia)) as Hdm.
    destruct (digitChar_digit (n mod 10) Hmod) as [Hd Hv].
    rewrite formatBits_S. destruct (Z.ltb_spec n 10) as [Hlt|Hge].
    + rewrite parseDigits_cons, Hd, Hv. rewrite Z.mod_small by lia. reflexivity.
    + rewrite IH.
      * rewrite parseDigits_cons, Hd, Hv. f_equal. lia.
      * split; [apply Z.div_pos; lia|]. apply Z.div_lt_upper_bound; lia.
Qed.

Lemma pow10_20 : 10 ^ Z.of_nat 20 = 100000000000000000000.
Proof. reflexivity. Qed.

Lemma Sprintf_d_nonneg n : 0 <= n -> Sprintf_d n = formatBits 20 n "".
Proof. intros H. unfold Sprintf_d. destruct (Z.ltb_spec n 0); [lia | reflexivity]. Qed.

Lemma Sprintf_d_value n :
  0 <= n <= GoInt.max_int -> parseDigits (Sprintf_d n) 0 = Some n.
Proof.
  intros Hn. rewrite Sprintf_d_nonneg by lia.
  rewrite formatBits_value; [reflexivity|].
  rewrite pow10_20. int_consts. lia.
Qed.

Lemma formatBits_length fuel : forall n acc,
  (String.length acc <= String.length (formatBits fuel n acc))%nat.
Proof.
  induction fuel as [|fuel IH]; intros n acc; [apply Nat.le_refl|].
  rewrite formatBits_S. destruct (n <? 10).
  - cbn [String.length]. lia.
  - etransitivity; [|apply IH]. cbn [String.length]. lia.
Qed.

Lemma Sprintf_d_small n :
  0 <= n < 10 -> Sprintf_d n = String (digitChar n) "".
Proof.
  intros Hn. rewrite Sprintf_d_nonneg by lia. rewrite formatBits_S.
  destruct (Z.ltb_spec n 10); [|lia]. now rewrite Z.mod_small by lia.
Qed.

Lemma Sprintf_d_large n :
  10 <= n -> (2 <= String.length (Sprintf_d n))%nat.
Proof.
  intros Hn. rewrite Sprintf_d_nonneg by lia. rewrite formatBits_S.
  destruct (Z.ltb_spec n 10); [lia|].
  rewrite (formatBits_S 18). destruct (n / 10 <? 10).
  - cbn [String.length]. lia.
  - etransitivity; [|apply formatBits_length]. cbn [String.length]. lia.
Qed.

Lemma Go_chunk_name w h mh rw pfx i :
  index (Go.chunk w h mh rw pfx i) = GoInt.add i 1 /\
  fileName (Go.chunk w h mh rw pfx i)
  = pfx ++ "_" ++ Go.fileNumberStr (GoInt.add i 1) ++ ".jpg".
Proof.
  unfold Go.chunk. destruct (Go.cropDecision w rw). split; reflexivity.
Qed.

(** C8.  For every index i from 1 to the number of planned chunks and every
    prefix, the i-th chunk is named [prefix ++ "_" ++ s ++ ".jpg"], where [s]
    is "0" followed by the decimal of i when i < 10 and the decimal of i
    otherwise; the decimal of i reads back as i, is a single digit for i < 10
    and has at least two characters from 10 on. *)
Theorem chunk_file_names :
  forall w h mh rw mi pfx chunks,
    Go.plan w h mh rw mi pfx = Some chunks \/ CLI.plan w h mh rw mi pfx = Some chunks ->
    forall i, 1 <= i <= Z.of_nat (List.length chunks) ->
      exists c, nth_error chunks (Z.to_nat (i - 1)) = Some c /\
        index c = i /\
        fileName c
        = pfx ++ "_" ++ (if i <? 10 then "0" ++ Sprintf_d i else Sprintf_d i) ++ ".jpg" /\
        parseDigits (Sprintf_d i) 0 = Some i /\
        (i < 10 -> Sprintf_d i = String (digitChar i) "") /\
        (10 <= i -> (2 <= String.length (Sprintf_d i))%nat).
Proof.
  intros w h mh rw mi pfx chunks Hplan i Hi.
  apply plan_elements in Hplan as (n & Hn & ->).
  apply splitCount_le_max in Hn.
  rewrite length_map, loopIndices_length in Hi.
  exists (Go.chunk w h mh rw pfx (Z.of_nat (Z.to_nat (i - 1)))).
  split; [apply nth_error_loop; split; [lia | reflexivity]|].
  rewrite Z2Nat.id by lia.
  assert (Hidx : GoInt.add (i - 1) 1 = i).
  { unfold GoInt.add. replace (i - 1 + 1) with i by ring.
    apply wrap_in_range. int_consts. lia. }
  destruct (Go_chunk_name w h mh rw pfx (i - 1)) as [Hindex Hname].
  rewrite Hindex, Hname, Hidx. unfold Go.fileNumberStr.
  split; [reflexivity|]. split; [reflexivity|].
  split; [apply Sprintf_d_value; int_consts; lia|].
  split; [intros; apply Sprintf_d_small; lia | apply Sprintf_d_large].
Qed.

(** C10.  For every probed (width, height) and every (maxChunkHeight,
    requestedMaxWidth, requestedMaxChunks, prefix), the external-tool strategy
    and the in-process strategy compute the same plan: both panic or both
    return the same list of chunks, with the same count, Y-ranges, widths,
    x-offsets and file names. *)
Theorem strategies_share_the_plan :
  forall w h mh rw mi pfx,
    CLI.plan w h mh rw mi pfx = Go.plan w h mh rw mi pfx.
Proof. exact CLI_plan_eq. Qed.




(** C1 as stated fails when the sum leaves [int]: a 2-row image with
    maxChunkHeight = 2^63 - 1 has ceiling 1, and the code plans no chunk. *)
Lemma ceiling_count_overflows :
  0 < 2 /\ 0 < 2 ^ 63 - 1 /\
  (2 + (2 ^ 63 - 1) - 1) / (2 ^ 63 - 1) = 1 /\
  Go.plan 2000 2 (2 ^ 63 - 1) 0 0 "page" = Some [] /\
  CLI.plan 2000 2 (2 ^ 63 - 1) 0 0 "page" = Some [].
Proof. repeat split; vm_compute; reflexivity. Qed.

(** C2 as stated fails when the sum leaves [int]: with height 2^63 - 1,
    maxChunkHeight 5000 and a limit of 1 (below the ceiling), the code plans
    no chunk at all. *)
Lemma limit_is_skipped_on_overflow :
  0 < 2 ^ 63 - 1 /\ 0 < 5000 /\ 0 < 1 /\
  1 < (2 ^ 63 - 1 + 5000 - 1) / 5000 /\
  Go.plan 2000 (2 ^ 63 - 1) 5000 0 1 "page" = Some [] /\
  CLI.plan 2000 (2 ^ 63 - 1) 5000 0 1 "page" = Some [].
Proof. repeat split; vm_compute; reflexivity. Qed.

Lemma unlimited_plan_layout_witness :
  (0 < 12000 /\ 0 < 5000 /\ 12000 + 5000 - 1 <= GoInt.max_int) /\
  exists chunks,
    Go.plan 2000 12000 5000 0 0 "page" = Some chunks /\
    Z.of_nat (List.length chunks) = 3.
Proof.
  assert (H : 0 < 12000 /\ 0 < 5000 /\ 12000 + 5000 - 1 <= GoInt.max_int).
  { unfold GoInt.max_int. repeat split; lia. }
  split; [exact H|].
  destruct H as (H1 & H2 & H3).
  destruct (unlimited_plan_layout 2000 12000 5000 0 "page" H1 H2 H3)
    as (chunks & Hgo & _ & Hlen & _).
  exists chunks. split; [exact Hgo | exact Hlen].
Defined.

Lemma limited_plan_is_prefix_witness :
  (0 < 12000 /\ 0 < 5000 /\ 12000 + 5000 - 1 <= GoInt.max_int /\
   0 < 2 /\ 2 < (12000 + 5000 - 1) / 5000) /\
  exists chunks,
    Go.plan 2000 12000 5000 0 2 "page" = Some chunks /\
    Z.of_nat (List.length chunks) = 2.
Proof.
  assert (H : 0 < 12000 /\ 0 < 5000 /\ 12000 + 5000 - 1 <= GoInt.max_int /\
              0 < 2 /\ 2 < (12000 + 5000 - 1) / 5000).
  { unfold GoInt.max_int. repeat split; lia. }
  split; [exact H|].
  destruct H as (H1 & H2 & H3 & H4 & H5).
  destruct (limited_plan_is_prefix 2000 12000 5000 0 2 "page" H1 H2 H3 H4 H5)
    as (chunks & every & Hgo & _ & _ & _ & Hlen & _).
  exists chunks. split; [exact Hgo | exact Hlen].
Defined.

Lemma width_crop_is_left_aligned_witness :
  0 < 1500 < 2000 /\
  xOffset (Go.chunk 2000 12000 5000 1500 "page" 0) = 0 /\
  outWidth (Go.chunk 2000 12000 5000 1500 "page" 0) = 1500.
Proof.
  split; [lia|].
  destruct (width_crop_is_left_aligned 2000 12000 5000 1500 0 "page"
              (map (Go.chunk 2000 12000 5000 1500 "page") (loopIndices 3))
              (or_introl eq_refl)
              (Go.chunk 2000 12000 5000 1500 "page" 0)
              (or_introl eq_refl)) as (Hx & Hw & _).
  split; [exact Hx | apply Hw; lia].
Defined.

Lemma chunk_file_names_witness :
  exists c,
    nth_error (map (Go.chunk 2000 55000 5000 0 "page") (loopIndices 11)) 10 = Some c /\
    fileName c = "page_11.jpg".
Proof.
  destruct (chunk_file_names 2000 55000 5000 0 0 "page"
              (map (Go.chunk 2000 55000 5000 0 "page") (loopIndices 11))
              (or_introl eq_refl) 11) as (c & Hn & _ & Hname & _).
  - vm_compute. split; discriminate.
  - exists c. split; [exact Hn | exact Hname].
Defined.

(** ** The dimension parser *)

Lemma Split_no_separator s c :
  containsByte s c = false -> Split s c = [s].
Proof.
  induction s as [|a r IH]; intros H; [reflexivity|].
  cbn [containsByte] in H. apply orb_false_iff in H as [Ha Hr].
  cbn [Split]. rewrite Ha, (IH Hr). reflexivity.
Qed.

Lemma Split_separator s c :
  containsByte s c = true -> exists p0 p1 rest, Split s c = p0 :: p1 :: rest.
Proof.
  induction s as [|a r IH]; intros H; [discriminate|].
  cbn [containsByte] in H. cbn [Split].
  destruct (Ascii.eqb a c) eqn:E.
  - destruct (Split r c) as [|p1 rest] eqn:Er.
    + destruct r; cbn [Split] in Er; [discriminate|].
      destruct (Ascii.eqb a0 c); [discriminate|].
      destruct (Split r c); discriminate.
    + now exists "", p1, rest.
  - cbn [orb] in H. destruct (IH H) as (p0 & p1 & rest & ->).
    now exists (String a p0), p1, rest.
Qed.

Lemma Atoi_in_range s n : Atoi s = Some n -> GoInt.in_range n.
Proof.
  unfold Atoi.
  destruct (match s with
            | String "+"%char r => (false, r)
            | String "-"%char r => (true, r)
            | _ => (false, s)
            end) as [neg digits].
  destruct digits as [|d ds]; [discriminate|].
  destruct (parseDigits (String d ds) 0) as [v|]; [|discriminate].
  destruct ((GoInt.min_int <=? (if neg then - v else v))
            && ((if neg then - v else v) <=? GoInt.max_int)) eqn:E; [|discriminate].
  intros H. injection H as <-.
  apply andb_prop in E as [E1 E2]. apply Z.leb_le in E1, E2.
  split; assumption.
Qed.

Lemma Split_nonempty s c : exists piece pieces, Split s c = piece :: pieces.
Proof.
  destruct s as [|a r]; [now exists "", []|].
  cbn [Split]. destruct (Ascii.eqb a c); [now eexists _, _|].
  destruct (Split r c); now eexists _, _.
Qed.

(** C9, as amended.  The parser of the [vipsheader] output fails when the
    trimmed output has no colon, when the dimension token does not split at
    "x" into exactly two parts, and when either part is not accepted by
    [strconv.Atoi]; all its errors are probe errors; and when it succeeds the
    two values are the [Atoi] readings of the two parts, integers of [int]
    range (of either sign). *)
Theorem parseVipsheader_outcomes :
  forall output,
    (containsByte (TrimSpace output) ":" = false ->
       parseVipsheader output = inl UnexpectedOutputFormatFromVipsheader) /\
    (containsByte (TrimSpace output) ":" = true ->
       List.length (Split (dimensionToken output) "x") <> 2%nat ->
       parseVipsheader output = inl UnexpectedDimensionFormatFromVipsheader) /\
    (forall d0 d1,
       containsByte (TrimSpace output) ":" = true ->
       Split (dimensionToken output) "x" = [d0; d1] ->
       (Atoi d0 = None ->
          parseVipsheader output = inl FailedToParseImageWidth) /\
       (Atoi d0 <> None -> Atoi d1 = None ->
          parseVipsheader output = inl FailedToParseImageHeight)) /\
    (forall e, parseVipsheader output = inl e -> kindOf e = ProbeError) /\
    (forall width totalHeight,
       parseVipsheader output = inr (width, totalHeight) ->
       exists d0 d1,
         Split (dimensionToken output) "x" = [d0; d1] /\
         Atoi d0 = Some width /\ Atoi d1 = Some totalHeight /\
         GoInt.in_range width /\ GoInt.in_range totalHeight).
Proof.
  intros output. unfold parseVipsheader, dimensionToken, colonFields.
  destruct (containsByte (TrimSpace output) ":") eqn:Hc.
  2:{ rewrite (Split_no_separator _ _ Hc).
      refine (conj _ (conj _ (conj _ (conj _ _)))); intros; try congruence.
      match goal with H : inl _ = inl _ |- _ => injection H as <- end.
      reflexivity. }
  destruct (Split_separator _ _ Hc) as (p0 & p1 & rest & ->).
  cbn [nth].
  destruct (Split_nonempty (TrimSpace p1) " ") as (token0 & tokens & ->).
  cbn [hd].
  destruct (Split token0 "x") as [|d0 [|d1 [|d2 ds]]] eqn:Ex.
  1,2,4: refine (conj _ (conj _ (conj _ (conj _ _)))); intros; try congruence;
    match goal with H : inl _ = inl _ |- _ => injection H as <- end;
    reflexivity.
  refine (conj _ (conj _ (conj _ (conj _ _)))).
  - discriminate.
  - intros _ H. now elim H.
  - intros e0 e1 _ H. injection H as <- <-. split.
    + intros ->. reflexivity.
    + intros H0 H1. destruct (Atoi d0); [|now elim H0]. now rewrite H1.
  - intros e H. destruct (Atoi d0); [destruct (Atoi d1)|];
      try discriminate; injection H as <-; reflexivity.
  - intros width totalHeight H.
    destruct (Atoi d0) as [w0|] eqn:E0; [|discriminate].
    destruct (Atoi d1) as [h0|] eqn:E1; [|discriminate].
    injection H as <- <-.
    exists d0, d1.
    refine (conj eq_refl (conj E0 (conj E1 (conj _ _)))).
    + exact (Atoi_in_range _ _ E0).
    + exact (Atoi_in_range _ _ E1).
Qed.

Lemma parseVipsheader_outcomes_witness :
  containsByte (TrimSpace "scan.jpg 1170x5000") ":" = false /\
  parseVipsheader "scan.jpg 1170x5000" = inl UnexpectedOutputFormatFromVipsheader.
Proof.
  split; [reflexivity|].
  apply (proj1 (parseVipsheader_outcomes "scan.jpg 1170x5000")). reflexivity.
Defined.

(** C9 as stated fails: signed numbers are numeric for [strconv.Atoi], so a
    line with negative dimensions is parsed, and both values are negative. *)
Lemma negative_dimensions_are_parsed :
  parseVipsheader "scan.jpg: -3x-4 uchar, 3 bands, srgb, jpegload" = inr (-3, -4) /\
  -3 < 0 /\ -4 < 0.
Proof. repeat split. Qed.

(** ** Runs *)

Lemma bind_Ok {A B} (m : M A) (k : A -> M B) t b :
  bind m k = (t, Ok b) ->
  exists t1 a t2, m = (t1, Ok a) /\ k a = (t2, Ok b) /\ t = (t1 ++ t2)%list.
Proof.
  unfold bind. destruct m as [t1 [a| |]]; try discriminate.
  destruct (k a) as [t2 r] eqn:E. intros H. injection H as <- ->.
  now exists t1, a, t2.
Qed.

Lemma orFail_Ok ok e t u : orFail ok e = (t, Ok u) -> ok = true /\ t = [].
Proof.
  unfold orFail. destruct ok; [|discriminate]. intros H. injection H as <-.
  now split.
Qed.

Lemma call_Ok ev t u : call ev = (t, Ok u) -> t = [ev].
Proof. intros H. now injection H as <-. Qed.

Lemma ret_Ok {A} (a b : A) t : ret a = (t, Ok b) -> t = [] /\ a = b.
Proof. intros H. injection H as <- <-. now split. Qed.

Ltac inv_run :=
  repeat match goal with
    | H : bind _ _ = (_, Ok _) |- _ =>
        apply bind_Ok in H as (? & ? & ? & ? & H & ->)
    | H : orFail _ _ = (_, Ok _) |- _ => apply orFail_Ok in H as [? ->]
    | H : call _ = (_, Ok _) |- _ => apply call_Ok in H as ->
    | H : ret _ = (_, Ok _) |- _ => apply ret_Ok in H as [-> ?]
    | H : fail _ = (_, Ok _) |- _ => discriminate H
    | H : panic = (_, Ok _) |- _ => discriminate H
    end.

(** *** The archive step *)





(** With the flag set, the processor the handler calls is the one of the
    source. *)
Lemma ProcessImage_with_archive env p url pfx w mi :
  WithZipFlag.ProcessImage env p url pfx w mi true = ProcessImage env p url pfx w mi.
Proof. reflexivity. Qed.











Example archive_on_request :
  exists t resp,
    handleSplitImage (sampleConfig true) sampleEnv "POST"
      (Some (sampleRequest "page" true)) = (t, Ok (200, Result resp)) /\
    ZipURL resp = "1700000000/page.zip" /\
    commands t = ["curl"; "vipsheader"; "vips"; "vips"; "vips"; "zip"].
Proof. eexists _, _. split; [vm_compute; reflexivity|]. split; reflexivity. Qed.

(** ** The prefix check reads runes *)

Lemma byteOf_range c : 0 <= byteOf c < 256.
Proof.
  unfold byteOf. pose proof (N_ascii_bounded c) as H. lia.
Qed.

Lemma byteOf_byte v : byteOf (utf8.byte v) = v mod 256.
Proof.
  unfold byteOf, utf8.byte.
  pose proof (Z.mod_pos_bound v 256 ltac:(lia)) as Hv.
  rewrite N_ascii_embedding by lia. lia.
Qed.

Lemma byte_byteOf c : utf8.byte (byteOf c) = c.
Proof.
  unfold utf8.byte. pose proof (byteOf_range c) as Hc.
  rewrite Z.mod_small by exact Hc. unfold byteOf.
  rewrite N2Z.id. apply ascii_N_embedding.
Qed.

Lemma lor_ge_l a b : 128 <= a -> 0 <= b -> 128 <= Z.lor a b.
Proof.
  intros Ha Hb.
  assert (Hr : 0 <= Z.lor a b) by (apply Z.lor_nonneg; lia).
  assert (Hl : 7 <= Z.log2 (Z.lor a b)).
  { rewrite Z.log2_lor by lia.
    pose proof (Z.log2_le_mono 128 a Ha) as H7.
    change (Z.log2 128) with 7 in H7. lia. }
  assert (Hp : 0 < Z.lor a b).
  { destruct (Z.eq_dec (Z.lor a b) 0) as [E|E]; [|lia].
    rewrite E in Hl. change (Z.log2 0) with 0 in Hl. lia. }
  apply Z.log2_le_pow2 in Hl; [|exact Hp]. change (2 ^ 7) with 128 in Hl. exact Hl.
Qed.

Lemma lor_ge_r a b : 0 <= a -> 128 <= b -> 128 <= Z.lor a b.
Proof. intros Ha Hb. rewrite Z.lor_comm. now apply lor_ge_l. Qed.

Lemma lor_lt_256 a b : 0 <= a < 256 -> 0 <= b < 256 -> 0 <= Z.lor a b < 256.
Proof.
  intros Ha Hb.
  assert (Hr : 0 <= Z.lor a b) by (apply Z.lor_nonneg; lia).
  split; [exact Hr|].
  destruct (Z.eq_dec (Z.lor a b) 0) as [E|E]; [lia|].
  change 256 with (2 ^ 8). apply Z.log2_lt_pow2; [lia|].
  rewrite Z.log2_lor by lia.
  assert (Hla : Z.log2 a < 8).
  { destruct (Z.eq_dec a 0) as [->|]; [reflexivity|].
    apply Z.log2_lt_pow2; [lia|]. change (2 ^ 8) with 256. lia. }
  assert (Hlb : Z.log2 b < 8).
  { destruct (Z.eq_dec b 0) as [->|]; [reflexivity|].
    apply Z.log2_lt_pow2; [lia|]. change (2 ^ 8) with 256. lia. }
  lia.
Qed.

Lemma land_mask_range a k : 0 <= k -> 0 <= Z.land a (Z.ones k) < 2 ^ k.
Proof.
  intros Hk. rewrite Z.land_ones by exact Hk. apply Z.mod_pos_bound.
  apply Z.pow_pos_nonneg; lia.
Qed.

Lemma shiftl_ge a k : 0 <= k -> 1 <= a -> 2 ^ k <= Z.shiftl a k.
Proof.
  intros Hk Ha. rewrite Z.shiftl_mul_pow2 by exact Hk.
  assert (0 < 2 ^ k) by (apply Z.pow_pos_nonneg; lia). nia.
Qed.

Lemma shiftl_nonneg a k : 0 <= a -> 0 <= Z.shiftl a k.
Proof. intros Ha. now apply Z.shiftl_nonneg. Qed.

Lemma length_pos c r : (Z.of_nat (String.length (String c r)) <? 1) = false.
Proof. cbn [String.length]. apply Z.ltb_ge. lia. Qed.

Lemma decode_ascii c r :
  byteOf c < 128 -> utf8.DecodeRuneInString (String c r) = (byteOf c, 1%nat).
Proof.
  intros Hc. unfold utf8.DecodeRuneInString. cbv zeta.
  rewrite length_pos. change (utf8.byteAt (String c r) 0) with (byteOf c).
  unfold utf8.first. destruct (Z.ltb_spec (byteOf c) 128) as [_|]; [|lia].
  reflexivity.
Qed.

Lemma decode_width c r : (1 <= snd (utf8.DecodeRuneInString (String c r)))%nat.
Proof.
  unfold utf8.DecodeRuneInString. cbv zeta. rewrite length_pos.
  repeat match goal with
         | |- context [if ?b then _ else _] =>
             lazymatch b with
             | context [if _ then _ else _] => fail
             | _ => destruct b
             end
         end; cbn [snd]; lia.
Qed.

Lemma byteAt_range s i : 0 <= utf8.byteAt s i < 256.
Proof.
  unfold utf8.byteAt. destruct (String.get i s) as [c|]; [apply byteOf_range | lia].
Qed.

Lemma first_cases b :
  128 <= b < 256 ->
  utf8.first b = utf8.xx
  \/ (utf8.first b = utf8.s1 /\ 194 <= b < 224)
  \/ (utf8.first b = utf8.s2 /\ b = 224)
  \/ (utf8.first b = utf8.s3 /\ 225 <= b < 240)
  \/ (utf8.first b = utf8.s4 /\ b = 237)
  \/ (utf8.first b = utf8.s5 /\ b = 240)
  \/ (utf8.first b = utf8.s6 /\ 241 <= b < 244)
  \/ (utf8.first b = utf8.s7 /\ b = 244).
Proof.
  intros Hb. unfold utf8.first.
  destruct (Z.ltb_spec b 128); [lia|].
  destruct (Z.ltb_spec b 194); [tauto|].
  destruct (Z.ltb_spec b 224); [right; left; split; [reflexivity | lia]|].
  destruct (Z.eqb_spec b 224); [tauto|].
  destruct (Z.ltb_spec b 237);
    [right; right; right; left; split; [reflexivity | lia]|].
  destruct (Z.eqb_spec b 237); [tauto|].
  destruct (Z.ltb_spec b 240);
    [right; right; right; left; split; [reflexivity | lia]|].
  destruct (Z.eqb_spec b 240); [tauto|].
  destruct (Z.ltb_spec b 244);
    [do 6 right; left; split; [reflexivity | lia]|].
  destruct (Z.eqb_spec b 244); tauto.
Qed.

Lemma land_mask2 a : Z.land a utf8.mask2 = a mod 32.
Proof. exact (Z.land_ones a 5 ltac:(lia)). Qed.

Lemma land_mask3 a : Z.land a utf8.mask3 = a mod 16.
Proof. exact (Z.land_ones a 4 ltac:(lia)). Qed.

Lemma land_mask4 a : Z.land a utf8.mask4 = a mod 8.
Proof. exact (Z.land_ones a 3 ltac:(lia)). Qed.

Lemma land_maskx a : Z.land a utf8.maskx = a mod 64.
Proof. exact (Z.land_ones a 6 ltac:(lia)). Qed.

Lemma shiftl_6 a : Z.shiftl a 6 = a * 64.
Proof. exact (Z.shiftl_mul_pow2 a 6 ltac:(lia)). Qed.

Lemma shiftl_12 a : Z.shiftl a 12 = a * 4096.
Proof. exact (Z.shiftl_mul_pow2 a 12 ltac:(lia)). Qed.

Lemma shiftl_18 a : Z.shiftl a 18 = a * 262144.
Proof. exact (Z.shiftl_mul_pow2 a 18 ltac:(lia)). Qed.

Ltac eval_closed t := let v := eval vm_compute in t in change t with v.

Ltac bits_arith :=
  rewrite ?land_mask2, ?land_mask3, ?land_mask4, ?land_maskx,
          ?shiftl_6, ?shiftl_12, ?shiftl_18;
  Z.div_mod_to_equations; lia.

Ltac bits_nonneg :=
  repeat (apply Z.lor_nonneg; split); bits_arith.

Ltac bits_high :=
  first [ solve [bits_arith]
        | apply lor_ge_l; [bits_high | solve [bits_nonneg]]
        | apply lor_ge_r; [solve [bits_nonneg] | bits_high] ].

Ltac decode_branches :=
  repeat match goal with
         | |- context [if (?a <? ?b) || (?c <? ?d) then _ else _] =>
             destruct (Z.ltb_spec a b); destruct (Z.ltb_spec c d); cbn [orb]
         | |- context [if (?a <? ?b) then _ else _] => destruct (Z.ltb_spec a b)
         end.

Ltac decode_first x :=
  eval_closed (utf8.as_ <=? x); eval_closed (Z.land x 7);
  eval_closed (utf8.acceptRanges (Z.shiftr x 4)); cbv iota; cbn [fst snd];
  repeat match goal with
         | |- context [if (?a <=? ?b) then _ else _] =>
             eval_closed (a <=? b); cbv iota
         end.

(** The rune that starts at a byte of 128 or more is not an ASCII rune: the
    decoder accepts no over-long encoding. *)
Lemma decode_high c r :
  128 <= byteOf c -> 128 <= fst (utf8.DecodeRuneInString (String c r)).
Proof.
  intros Hc. pose proof (byteOf_range c) as Hr.
  unfold utf8.DecodeRuneInString. cbv zeta. rewrite length_pos.
  change (utf8.byteAt (String c r) 0) with (byteOf c).
  pose proof (byteAt_range (String c r) 1) as H1.
  pose proof (byteAt_range (String c r) 2) as H2.
  pose proof (byteAt_range (String c r) 3) as H3.
  set (n := Z.of_nat (String.length (String c r))).
  set (b0 := byteOf c) in *.
  set (b1 := utf8.byteAt (String c r) 1) in *.
  set (b2 := utf8.byteAt (String c r) 2) in *.
  set (b3 := utf8.byteAt (String c r) 3) in *.
  destruct (first_cases b0 (conj Hc (proj2 Hr)))
    as [Hf|[[Hf Hb]|[[Hf Hb]|[[Hf Hb]|[[Hf Hb]|[[Hf Hb]|[[Hf Hb]|[Hf Hb]]]]]]]];
    rewrite Hf.
  - eval_closed (utf8.as_ <=? utf8.xx). eval_closed (utf8.xx =? utf8.xx).
    cbv iota. cbn [fst]. unfold utf8.RuneError. lia.
  - decode_first utf8.s1. decode_branches; cbn [fst]; unfold utf8.RuneError;
      try lia; bits_high.
  - decode_first utf8.s2. decode_branches; cbn [fst]; unfold utf8.RuneError;
      try lia; bits_high.
  - decode_first utf8.s3. decode_branches; cbn [fst]; unfold utf8.RuneError;
      try lia; bits_high.
  - decode_first utf8.s4. decode_branches; cbn [fst]; unfold utf8.RuneError;
      try lia; bits_high.
  - decode_first utf8.s5. decode_branches; cbn [fst]; unfold utf8.RuneError;
      try lia; bits_high.
  - decode_first utf8.s6. decode_branches; cbn [fst]; unfold utf8.RuneError;
      try lia; bits_high.
  - decode_first utf8.s7. decode_branches; cbn [fst]; unfold utf8.RuneError;
      try lia; bits_high.
Qed.

Lemma drop_length n s : String.length (utf8.drop n s) = (String.length s - n)%nat.
Proof.
  revert s. induction n as [|n IH]; intros s; cbn [utf8.drop].
  - lia.
  - destruct s as [|c r]; [reflexivity|]. cbn [String.length]. rewrite IH. lia.
Qed.

Lemma rangeRunes_S fuel c r :
  utf8.rangeRunes (S fuel) (String c r)
  = fst (utf8.DecodeRuneInString (String c r))
    :: utf8.rangeRunes fuel
         (utf8.drop (snd (utf8.DecodeRuneInString (String c r))) (String c r)).
Proof.
  cbn [utf8.rangeRunes].
  destruct (utf8.DecodeRuneInString (String c r)) as [char width]. reflexivity.
Qed.

(** The fuel of [runes] is never used up: any larger amount yields the same
    runes, so the loop ends because the string does. *)
Lemma rangeRunes_fuel fuel :
  forall s, (String.length s <= fuel)%nat -> utf8.rangeRunes fuel s = utf8.runes s.
Proof.
  unfold utf8.runes.
  induction fuel as [fuel IH] using lt_wf_ind. intros s Hs.
  destruct s as [|c r]; [destruct fuel; reflexivity|].
  cbn [String.length] in *. destruct fuel as [|fuel]; [lia|].
  rewrite !rangeRunes_S. f_equal.
  pose proof (decode_width c r) as Hw.
  set (rest := utf8.drop _ _).
  assert (Hrest : (String.length rest <= String.length r)%nat).
  { unfold rest. rewrite drop_length. cbn [String.length]. lia. }
  rewrite (IH fuel) by lia.
  rewrite (IH (String.length r)) by lia. reflexivity.
Qed.

Lemma runes_ascii c r :
  byteOf c < 128 -> utf8.runes (String c r) = byteOf c :: utf8.runes r.
Proof.
  intros Hc. unfold utf8.runes. cbn [String.length].
  rewrite rangeRunes_S, (decode_ascii c r Hc). reflexivity.
Qed.

Lemma runes_high c r :
  128 <= byteOf c ->
  exists char rest, utf8.runes (String c r) = char :: rest /\ 128 <= char.
Proof.
  intros Hc. unfold utf8.runes. cbn [String.length]. rewrite rangeRunes_S.
  eexists _, _. split; [reflexivity|]. now apply decode_high.
Qed.

Lemma isASCII_runes s :
  isASCII s = true -> Forall (fun char => char < 128) (utf8.runes s).
Proof.
  induction s as [|c r IH]; cbn [isASCII]; intros H.
  - constructor.
  - apply andb_true_iff in H as [Hc Hr]. apply Z.ltb_lt in Hc.
    unfold utf8.RuneSelf in Hc. rewrite (runes_ascii c r Hc).
    constructor; [exact Hc | now apply IH].
Qed.

Lemma isASCII_containsByte s c :
  isASCII s = true -> 128 <= byteOf c -> containsByte s c = false.
Proof.
  intros Hs Hc. induction s as [|a r IH]; [reflexivity|].
  cbn [isASCII] in Hs. apply andb_true_iff in Hs as [Ha Hr]. apply Z.ltb_lt in Ha.
  unfold utf8.RuneSelf in Ha. cbn [containsByte].
  destruct (Ascii.eqb_spec a c) as [->|_]; [lia|]. now apply IH.
Qed.

Lemma isASCII_Contains s p rest :
  isASCII s = true -> 128 <= byteOf p -> Contains s (String p rest) = false.
Proof.
  intros Hs Hp. induction s as [|a r IH]; [reflexivity|].
  cbn [isASCII] in Hs. apply andb_true_iff in Hs as [Ha Hr]. apply Z.ltb_lt in Ha.
  unfold utf8.RuneSelf in Ha. cbn [Contains hasPrefix].
  destruct (Ascii.eqb_spec a p) as [->|_]; [lia|]. cbn [andb orb]. now apply IH.
Qed.

Lemma lead_byte_high t v :
  128 <= t < 256 -> 128 <= byteOf (utf8.byte (Z.lor t (byteOf (utf8.byte v)))).
Proof.
  intros Ht. pose proof (byteOf_range (utf8.byte v)) as Hv.
  rewrite byteOf_byte.
  pose proof (lor_lt_256 t _ ltac:(lia) Hv) as Hl.
  rewrite Z.mod_small by exact Hl. apply lor_ge_l; lia.
Qed.

(** The encoding of a rune that is not ASCII starts with a byte of 128 or
    more. *)
Lemma runeString_high r :
  (0 <=? r) && (r <? utf8.RuneSelf) = false ->
  exists p rest, utf8.runeString r = String p rest /\ 128 <= byteOf p.
Proof.
  intros Hr. unfold utf8.runeString. rewrite Hr.
  destruct ((0 <=? r) && (r <=? utf8.rune2Max)).
  { eexists _, _. split; [reflexivity|]. apply lead_byte_high. unfold utf8.t2. lia. }
  destruct (negb (utf8.ValidRune r)).
  { eexists _, _. split; [reflexivity|]. rewrite byteOf_byte.
    change (239 mod 256) with 239. lia. }
  destruct (r <=? utf8.rune3Max).
  { eexists _, _. split; [reflexivity|]. apply lead_byte_high. unfold utf8.t3. lia. }
  eexists _, _. split; [reflexivity|]. apply lead_byte_high. unfold utf8.t4. lia.
Qed.

Lemma ContainsRune_ascii_byte allowed c :
  byteOf c < 128 -> ContainsRune allowed (byteOf c) = containsByte allowed c.
Proof.
  intros Hc. pose proof (byteOf_range c) as Hr. unfold ContainsRune.
  destruct (Z.leb_spec 0 (byteOf c)); [|lia].
  destruct (Z.ltb_spec (byteOf c) utf8.RuneSelf); [|unfold utf8.RuneSelf in *; lia].
  cbn [andb]. now rewrite byte_byteOf.
Qed.

(** A set of ASCII characters holds no rune of 128 or more. *)
Lemma ContainsRune_ascii_high allowed char :
  isASCII allowed = true -> 128 <= char -> ContainsRune allowed char = false.
Proof.
  intros Ha Hc. unfold ContainsRune.
  destruct ((0 <=? char) && (char <? utf8.RuneSelf)) eqn:Hlow.
  { apply andb_true_iff in Hlow as [_ Hlt]. apply Z.ltb_lt in Hlt.
    unfold utf8.RuneSelf in Hlt. lia. }
  destruct (char =? utf8.RuneError).
  { apply isASCII_runes in Ha. induction Ha as [|x l Hx _ IH]; [reflexivity|].
    cbn [existsb]. rewrite IH, orb_false_r. apply Z.eqb_neq.
    unfold utf8.RuneError. lia. }
  destruct (negb (utf8.ValidRune char)); [reflexivity|].
  destruct (runeString_high char Hlow) as (p & rest & -> & Hp).
  now apply isASCII_Contains.
Qed.

(** With a set of ASCII characters the loop over the runes of [s] decides
    the same as a loop over its bytes. *)
Lemma containsOnlyAllowedChars_ascii s allowed :
  isASCII allowed = true ->
  containsOnlyAllowedChars s allowed = onlyBytesOf s allowed.
Proof.
  intros Ha. unfold containsOnlyAllowedChars.
  induction s as [|c r IH]; [reflexivity|].
  cbn [onlyBytesOf]. destruct (Z.lt_ge_cases (byteOf c) 128) as [Hc|Hc].
  - rewrite (runes_ascii c r Hc). cbn [allAllowed].
    rewrite (ContainsRune_ascii_byte allowed c Hc), IH. reflexivity.
  - destruct (runes_high c r Hc) as (char & rest & -> & Hchar). cbn [allAllowed].
    rewrite (ContainsRune_ascii_high allowed char Ha Hchar).
    rewrite (isASCII_containsByte allowed c Ha Hc). reflexivity.
Qed.

Lemma onlyBytesOf_iff s allowed :
  onlyBytesOf s allowed = true <->
  (forall c, containsByte s c = true -> containsByte allowed c = true).
Proof.
  induction s as [|a r IH].
  - split; [intros _ c Hc; discriminate Hc | reflexivity].
  - cbn [onlyBytesOf].
    destruct (containsByte allowed a) eqn:Ha; cbn [negb].
    + rewrite IH. split.
      * intros H c Hc. cbn [containsByte] in Hc.
        destruct (Ascii.eqb_spec a c) as [E|E]; [now subst c|]. now apply H.
      * intros H c Hc. apply H. cbn [containsByte]. rewrite Hc. apply orb_true_r.
    + split; [discriminate|]. intros H.
      rewrite <- Ha. apply H. cbn [containsByte]. now rewrite Ascii.eqb_refl.
Qed.

Example rune_of_two_bytes : utf8.runes (bytes [195; 169]) = [233].
Proof. reflexivity. Qed.

Example rune_of_three_bytes : utf8.runes (bytes [226; 130; 172]) = [8364].
Proof. reflexivity. Qed.

Example rune_of_four_bytes : utf8.runes (bytes [240; 159; 152; 128]) = [128512].
Proof. reflexivity. Qed.

Example runes_of_malformed_bytes :
  utf8.runes (bytes [97; 195; 98; 237; 160; 128; 192; 128])
  = [97; 65533; 98; 65533; 65533; 65533; 65533; 65533].
Proof. reflexivity. Qed.

Example runeString_inverts :
  utf8.runeString 233 = bytes [195; 169] /\
  utf8.runeString 8364 = bytes [226; 130; 172] /\
  utf8.runeString 128512 = bytes [240; 159; 152; 128].
Proof. repeat split. Qed.

(** A lone byte of a two-byte encoding is the rune [RuneError], which a set
    holding the whole encoding does not contain; the bytes of [s] all occur
    in [allowed] here. *)
Example lone_lead_byte_is_refused :
  containsOnlyAllowedChars (bytes [195]) (bytes [195; 169]) = false /\
  onlyBytesOf (bytes [195]) (bytes [195; 169]) = true /\
  containsOnlyAllowedChars (bytes [195; 169]) (bytes [195; 169]) = true.
Proof. repeat split. Qed.

Lemma allowedPrefixChars_spec c :
  containsByte allowedPrefixChars c = isWordByte c.
Proof.
  destruct c as [[] [] [] [] [] [] [] []]; vm_compute; reflexivity.
Qed.

Lemma allowedPrefixChars_ascii : isASCII allowedPrefixChars = true.
Proof. reflexivity. Qed.

Lemma containsOnlyAllowedChars_false s allowed c :
  isASCII allowed = true ->
  containsByte s c = true -> containsByte allowed c = false ->
  containsOnlyAllowedChars s allowed = false.
Proof.
  intros Ha Hs Hc. rewrite (containsOnlyAllowedChars_ascii s allowed Ha).
  destruct (onlyBytesOf s allowed) eqn:E; [|reflexivity].
  rewrite (proj1 (onlyBytesOf_iff s allowed) E c Hs) in Hc. discriminate Hc.
Qed.

(** C6, as amended.  An empty url, a negative max_images, or a byte of
    images_prefix that is not an ASCII letter, digit or underscore is answered
    with status 400 before the pipeline starts: the run makes no call at all
    (no directory, no fetch). *)
Theorem invalid_fields_stop_the_run :
  forall cfg env req,
    URL req = "" \/ MaxImages req < 0 \/
    (exists c, containsByte (ImagesPrefix req) c = true /\ isWordByte c = false) ->
    exists text,
      handleSplitImage cfg env "POST" (Some req) = ([], Ok (400, ErrorMessage text)).
Proof.
  intros cfg env req H. unfold handleSplitImage. cbn [String.eqb Ascii.eqb negb].
  change (("POST" =? "POST")%string) with true. cbn [negb].
  destruct (String.eqb_spec (URL req) "") as [|Hurl]; [now eexists|].
  destruct (Z.ltb_spec (MaxImages req) 0) as [|Hmax]; [now eexists|].
  destruct H as [H | [H | (c & Hc & Hw)]]; [contradiction | lia |].
  rewrite <- allowedPrefixChars_spec in Hw.
  rewrite (containsOnlyAllowedChars_false _ _ _ allowedPrefixChars_ascii Hc Hw).
  now eexists.
Qed.

Lemma invalid_fields_stop_the_run_witness :
  exists text,
    handleSplitImage (sampleConfig false) sampleEnv "POST"
      (Some (sampleRequest "my page" true)) = ([], Ok (400, ErrorMessage text)).
Proof.
  apply (invalid_fields_stop_the_run (sampleConfig false) sampleEnv
           (sampleRequest "my page" true)).
  right. right. exists " "%char. split; reflexivity.
Defined.

(** C6 as stated fails for the empty images_prefix: the request is
    accepted, the working directory is created and the image is fetched. *)
Lemma empty_prefix_starts_the_run :
  ImagesPrefix (sampleRequest "" true) = "" /\
  exists t r,
    handleSplitImage (sampleConfig false) sampleEnv "POST"
      (Some (sampleRequest "" true)) = (t, r) /\
    In (MkdirAll "/data/1700000000") t /\
    In (HttpGet "https://example.com/images/tall-image.jpg") t.
Proof.
  split; [reflexivity|].
  eexists _, _. split; [vm_compute; reflexivity|].
  split; cbn [In]; repeat ((left; reflexivity) || right).
Qed.

(** C5, at its failing input.  [downloadImage] does not look at the status
    of the response: on a 404 it writes the error page to the destination and
    returns no error. *)
Theorem downloadImage_accepts_error_status :
  client_Do notFoundEnv "https://example.com/images/missing.jpg"
  = Response 404 "404 page not found" /\
  downloadImage notFoundEnv "https://example.com/images/missing.jpg"
    "/data/1700000000/original_image.jpg"
  = ([HttpGet "https://example.com/images/missing.jpg";
      CreateFile "/data/1700000000/original_image.jpg";
      WriteBody "/data/1700000000/original_image.jpg" "404 page not found"],
     Ok tt).
Proof. split; reflexivity. Qed.

(** ** More on the plan *)

Lemma wrapped_ceiling_nonpositive h mh :
  h <= 0 -> 0 < mh -> GoInt.in_range h -> GoInt.in_range mh ->
  exists q, GoInt.quo (GoInt.sub (GoInt.add h mh) 1) mh = Some q /\ q <= 0.
Proof.
  intros Hh Hmh Rh Rmh. unfold GoInt.quo, GoInt.sub, GoInt.add.
  destruct (Z.eqb_spec mh 0); [lia|].
  rewrite wrap_sub_wrap. int_consts.
  rewrite (wrap_in_range (h + mh - 1)) by (int_consts; lia).
  eexists. split; [reflexivity|].
  assert (Hq : Z.quot (h + mh - 1) mh <= 0).
  { destruct (Z.le_gt_cases 0 (h + mh - 1)).
    - rewrite Z.quot_small by lia. lia.
    - apply Z.quot_le_upper_bound; lia. }
  assert (Hlow : - (9223372036854775808) <= Z.quot (h + mh - 1) mh).
  { destruct (Z.le_gt_cases 0 (h + mh - 1)).
    - rewrite Z.quot_small by lia. lia.
    - pose proof (Z.quot_opp_l (h + mh - 1) mh ltac:(lia)) as Ho.
      assert (0 <= Z.quot (- (h + mh - 1)) mh <= - (h + mh - 1)).
      { split; [apply Z.quot_pos; lia|]. apply Z.quot_le_upper_bound; nia. }
      lia. }
  rewrite wrap_in_range by (int_consts; lia). exact Hq.
Qed.

(** X1.  Whatever the dimensions and the configured height, a positive
    max_images is never exceeded: a plan has at most that many chunks. *)
Theorem limit_is_never_exceeded :
  forall w h mh rw mi pfx chunks,
    Go.plan w h mh rw mi pfx = Some chunks \/ CLI.plan w h mh rw mi pfx = Some chunks ->
    0 < mi ->
    Z.of_nat (List.length chunks) <= mi.
Proof.
  intros w h mh rw mi pfx chunks Hplan Hmi.
  apply plan_elements in Hplan as (n & Hn & ->).
  rewrite length_map, loopIndices_length.
  unfold Go.splitCount in Hn.
  destruct (GoInt.quo _ mh) as [q|]; [|discriminate].
  injection Hn as <-.
  destruct (Z.gtb_spec mi 0); [|lia]. cbn [andb].
  destruct (Z.gtb_spec q mi); lia.
Qed.

Lemma limit_is_never_exceeded_witness :
  0 < 2 /\
  Z.of_nat (List.length (map (Go.chunk 2000 12000 5000 0 "page") (loopIndices 2))) <= 2.
Proof.
  split; [lia|].
  apply (limit_is_never_exceeded 2000 12000 5000 0 2 "page"
           (map (Go.chunk 2000 12000 5000 0 "page") (loopIndices 2))
           (or_introl eq_refl)).
  lia.
Defined.

(** X2.  An image of height zero (or a negative height read from
    [vipsheader]) is planned as no chunk at all, for every positive
    maxChunkHeight. *)
Theorem empty_image_has_no_chunk :
  forall w h mh rw mi pfx,
    h <= 0 -> 0 < mh -> GoInt.in_range h -> GoInt.in_range mh ->
    Go.plan w h mh rw mi pfx = Some [] /\ CLI.plan w h mh rw mi pfx = Some [].
Proof.
  intros w h mh rw mi pfx Hh Hmh Rh Rmh.
  rewrite CLI_plan_eq.
  destruct (wrapped_ceiling_nonpositive h mh Hh Hmh Rh Rmh) as (q & Hq & Hle).
  assert (Hplan : Go.plan w h mh rw mi pfx = Some []).
  { unfold Go.plan, Go.splitCount. rewrite Hq.
    set (n := if (mi >? 0) && (q >? mi) then mi else q).
    assert (Hn : n <= 0).
    { unfold n. destruct (Z.gtb_spec mi 0); cbn [andb]; [|assumption].
      destruct (Z.gtb_spec q mi); lia. }
    unfold loopIndices. replace (Z.to_nat n) with 0%nat by lia. reflexivity. }
  split; exact Hplan.
Qed.

Lemma empty_image_has_no_chunk_witness :
  (0 <= 0 /\ 0 < 5000) /\ Go.plan 2000 0 5000 0 0 "page" = Some [].
Proof.
  split; [lia|].
  apply (empty_image_has_no_chunk 2000 0 5000 0 0 "page");
    unfold GoInt.in_range, GoInt.min_int, GoInt.max_int; lia.
Defined.

(** X3.  Limiting never changes a chunk: for all inputs the limited plan is
    the beginning of the unlimited one, all of it when max_images <= 0 and
    its first max_images chunks (or all, if there are fewer) otherwise; and
    the two plans panic together, exactly when maxChunkHeight = 0. *)
Theorem limit_only_drops_trailing_chunks :
  forall w h mh rw mi pfx,
    match Go.plan w h mh rw mi pfx, Go.plan w h mh rw 0 pfx with
    | Some chunks, Some every =>
        chunks = firstn (List.length chunks) every /\
        (mi <= 0 -> chunks = every) /\
        (0 < mi ->
           List.length chunks = Nat.min (List.length every) (Z.to_nat mi))
    | None, None => mh = 0
    | _, _ => False
    end.
Proof.
  intros w h mh rw mi pfx. unfold Go.plan, Go.splitCount.
  destruct (GoInt.quo (GoInt.sub (GoInt.add h mh) 1) mh) as [q|] eqn:Hq.
  2:{ unfold GoInt.quo in Hq. destruct (Z.eqb_spec mh 0); [assumption|discriminate]. }
  change ((0 >? 0) && (q >? 0)) with false. cbv iota.
  rewrite !length_map, !loopIndices_length.
  destruct (Z.gtb_spec mi 0) as [Hmi|Hmi]; cbn [andb].
  - destruct (Z.gtb_spec q mi) as [Hlt|Hge].
    + split; [|split; [lia|intros _; lia]].
      unfold loopIndices. rewrite !firstn_map, firstn_seq_le by lia. reflexivity.
    + split; [|split; [lia|intros _; lia]].
      rewrite <- (loopIndices_length q), <- (length_map (Go.chunk w h mh rw pfx)).
      now rewrite firstn_all.
  - split; [|split; [reflexivity|lia]].
    rewrite <- (loopIndices_length q), <- (length_map (Go.chunk w h mh rw pfx)).
    now rewrite firstn_all.
Qed.

(** ** Strings *)

Lemma append_nil_r (s : string) : s ++ "" = s.
Proof. induction s as [|c s IH]; [reflexivity|]. cbn [append]. now rewrite IH. Qed.

Lemma append_assoc (a b c : string) : (a ++ b) ++ c = a ++ (b ++ c).
Proof. induction a as [|x a IH]; [reflexivity|]. cbn [append]. now rewrite IH. Qed.

Lemma length_append (a b : string) :
  String.length (a ++ b) = (String.length a + String.length b)%nat.
Proof. induction a as [|x a IH]; [reflexivity|]. cbn [append String.length]. now rewrite IH. Qed.

Lemma append_inv_head (a b c : string) : a ++ b = a ++ c -> b = c.
Proof.
  induction a as [|x a IH]; [trivial|]. cbn [append]. intros H.
  injection H as H. now apply IH.
Qed.

Lemma append_inv_tail (a b c : string) : a ++ c = b ++ c -> a = b.
Proof.
  revert b. induction a as [|x a IH]; intros [|y b] H.
  - reflexivity.
  - apply (f_equal String.length) in H. cbn [append String.length] in H.
    rewrite length_append in H. lia.
  - apply (f_equal String.length) in H. cbn [append String.length] in H.
    rewrite length_append in H. lia.
  - cbn [append] in H. injection H as -> H. f_equal. now apply IH.
Qed.

Lemma revAppend_spec (s acc : string) : revAppend s acc = reverse s ++ acc.
Proof.
  unfold reverse. revert acc. induction s as [|c s IH]; intros acc; [reflexivity|].
  cbn [revAppend]. rewrite IH, (IH (String c "")), append_assoc. reflexivity.
Qed.

Lemma reverse_cons c s : reverse (String c s) = reverse s ++ String c "".
Proof. unfold reverse at 1. cbn [revAppend]. apply revAppend_spec. Qed.

Lemma reverse_append (a b : string) : reverse (a ++ b) = reverse b ++ reverse a.
Proof.
  induction a as [|x a IH].
  - cbn [append]. now rewrite append_nil_r.
  - cbn [append]. rewrite !reverse_cons, IH, append_assoc. reflexivity.
Qed.

Lemma reverse_involutive (s : string) : reverse (reverse s) = s.
Proof.
  induction s as [|c s IH]; [reflexivity|].
  rewrite reverse_cons, reverse_append, IH. reflexivity.
Qed.

Lemma containsByte_append (a b : string) c :
  containsByte (a ++ b) c = containsByte a c || containsByte b c.
Proof.
  induction a as [|x a IH]; [reflexivity|].
  cbn [append containsByte]. rewrite IH. apply orb_assoc.
Qed.

Lemma hasPrefix_append (p s : string) : hasPrefix (p ++ s) p = true.
Proof.
  induction p as [|c p IH]; [now destruct s|].
  cbn [append hasPrefix]. now rewrite Ascii.eqb_refl, IH.
Qed.

Lemma HasSuffix_append (s suffix : string) : HasSuffix (s ++ suffix) suffix = true.
Proof. unfold HasSuffix. rewrite reverse_append. apply hasPrefix_append. Qed.

(** ** [containsOnlyAllowedChars] *)

Lemma allowed_bytes_iff s allowed :
  isASCII allowed = true ->
  containsOnlyAllowedChars s allowed = true <->
  (forall c, containsByte s c = true -> containsByte allowed c = true).
Proof.
  intros Ha. rewrite (containsOnlyAllowedChars_ascii s allowed Ha).
  apply onlyBytesOf_iff.
Qed.

(** X4.  With a set [allowed] of ASCII characters, as at the call site,
    [containsOnlyAllowedChars s allowed] holds exactly when every byte of [s]
    occurs in [allowed]: the runes of [s] are decoded as UTF-8, and neither a
    rune of several bytes nor the [RuneError] of a malformed sequence is
    found in an ASCII set.  In particular it holds for the empty [s]. *)
Theorem containsOnlyAllowedChars_iff :
  forall s allowed,
    isASCII allowed = true ->
    containsOnlyAllowedChars s allowed = true <->
    (forall c, containsByte s c = true -> containsByte allowed c = true).
Proof.
  intros s allowed Ha. unfold containsOnlyAllowedChars.
  induction s as [|c r IH].
  - split; [intros _ c Hc; discriminate Hc | reflexivity].
  - destruct (Z.lt_ge_cases (byteOf c) 128) as [Hc|Hc].
    + rewrite (runes_ascii c r Hc). cbn [allAllowed].
      rewrite (ContainsRune_ascii_byte allowed c Hc).
      destruct (containsByte allowed c) eqn:Hin; cbn [negb].
      * rewrite IH. split.
        -- intros H c' Hc'. cbn [containsByte] in Hc'.
           destruct (Ascii.eqb_spec c c') as [E|E]; [now subst c'|]. now apply H.
        -- intros H c' Hc'. apply H. cbn [containsByte]. rewrite Hc'.
           apply orb_true_r.
      * split; [discriminate|]. intros H. rewrite <- Hin. apply H.
        cbn [containsByte]. now rewrite Ascii.eqb_refl.
    + destruct (runes_high c r Hc) as (char & rest & -> & Hchar). cbn [allAllowed].
      rewrite (ContainsRune_ascii_high allowed char Ha Hchar). cbn [negb].
      split; [discriminate|]. intros H.
      rewrite <- (isASCII_containsByte allowed c Ha Hc). apply H.
      cbn [containsByte]. now rewrite Ascii.eqb_refl.
Qed.

Lemma containsOnlyAllowedChars_iff_witness :
  isASCII allowedPrefixChars = true /\
  containsOnlyAllowedChars (bytes [112; 195; 169]) allowedPrefixChars = false.
Proof.
  split; [reflexivity|].
  destruct (containsOnlyAllowedChars (bytes [112; 195; 169]) allowedPrefixChars) eqn:E;
    [|reflexivity].
  pose proof (proj1 (containsOnlyAllowedChars_iff (bytes [112; 195; 169])
                       allowedPrefixChars eq_refl) E (utf8.byte 195) eq_refl) as H.
  discriminate H.
Defined.

(** ** Decimal numerals *)

Lemma formatBits_bytes fuel : forall n acc c,
  0 <= n ->
  containsByte (formatBits fuel n acc) c = true ->
  isDigit c = true \/ containsByte acc c = true.
Proof.
  induction fuel as [|fuel IH]; intros n acc c Hn H; [now right|].
  rewrite formatBits_S in H.
  pose proof (Z.mod_pos_bound n 10 ltac:(lia)) as Hmod.
  destruct (digitChar_digit (n mod 10) Hmod) as [Hd _].
  assert (Hacc : containsByte (String (digitChar (n mod 10)) acc) c = true ->
                 isDigit c = true \/ containsByte acc c = true).
  { cbn [containsByte]. destruct (Ascii.eqb_spec (digitChar (n mod 10)) c) as [E|E].
    - subst c. now left.
    - cbn [orb]. now right. }
  destruct (n <? 10); [now apply Hacc|].
  apply IH in H; [|apply Z.div_pos; lia].
  destruct H as [H|H]; [now left | now apply Hacc].
Qed.

Lemma formatBits_head fuel : forall n acc,
  0 <= n ->
  exists d r, 0 <= d < 10 /\ formatBits (S fuel) n acc = String (digitChar d) r.
Proof.
  induction fuel as [|fuel IH]; intros n acc Hn.
  - rewrite formatBits_S. exists (n mod 10).
    pose proof (Z.mod_pos_bound n 10 ltac:(lia)).
    destruct (n <? 10); eexists; (split; [lia | reflexivity]).
  - rewrite formatBits_S.
    pose proof (Z.mod_pos_bound n 10 ltac:(lia)).
    destruct (n <? 10).
    + exists (n mod 10). eexists. split; [lia | reflexivity].
    + apply IH. apply Z.div_pos; lia.
Qed.

Lemma Atoi_unsigned d r v :
  0 <= d < 10 -> parseDigits (String (digitChar d) r) 0 = Some v ->
  0 <= v <= GoInt.max_int ->
  Atoi (String (digitChar d) r) = Some v.
Proof.
  intros Hd Hv Hr.
  assert (Hrange : (GoInt.min_int <=? v) && (v <=? GoInt.max_int) = true).
  { apply andb_true_intro. split; apply Z.leb_le; int_consts; lia. }
  assert (E : d = 0 \/ d = 1 \/ d = 2 \/ d = 3 \/ d = 4 \/ d = 5 \/ d = 6 \/
              d = 7 \/ d = 8 \/ d = 9) by lia.
  unfold Atoi.
  repeat (destruct E as [E|E]; [subst d|]); [..|subst d];
    match goal with |- context [digitChar ?k] =>
      let c := eval vm_compute in (digitChar k) in
      change (digitChar k) with c in * end;
    cbv beta iota; rewrite Hv, Hrange; reflexivity.
Qed.

Lemma Sprintf_d_head n :
  0 <= n -> exists d r, 0 <= d < 10 /\ Sprintf_d n = String (digitChar d) r.
Proof.
  intros Hn. rewrite Sprintf_d_nonneg by assumption. now apply formatBits_head.
Qed.

Lemma Atoi_of_Sprintf_d :
  forall n, GoInt.in_range n -> Atoi (Sprintf_d n) = Some n.
Proof.
  intros n Hn. destruct (Z.le_gt_cases 0 n) as [Hpos|Hneg].
  - destruct (Sprintf_d_head n Hpos) as (d & r & Hd & E).
    pose proof (Sprintf_d_value n) as Hv. int_consts. rewrite E in *.
    apply Atoi_unsigned; [assumption | apply Hv; lia | int_consts; lia].
  - unfold Sprintf_d. destruct (Z.ltb_spec n 0); [|lia].
    destruct (formatBits_head 19 (- n) "" ltac:(lia)) as (d & r & Hd & E).
    assert (Hv : parseDigits (formatBits 20 (- n) "") 0 = Some (- n)).
    { rewrite formatBits_value; [reflexivity|]. rewrite pow10_20. int_consts. lia. }
    unfold Atoi. rewrite E in *. rewrite Hv.
    replace (- - n) with n by lia.
    assert (Hrange : (GoInt.min_int <=? n) && (n <=? GoInt.max_int) = true).
    { apply andb_true_intro. split; apply Z.leb_le; int_consts; lia. }
    now rewrite Hrange.
Qed.

(** X5.  Every [int], of either sign, printed with [%d] is read back by
    [strconv.Atoi] as the same number. *)
Theorem Atoi_reads_Sprintf_d :
  forall n, GoInt.in_range n -> Atoi (Sprintf_d n) = Some n.
Proof. exact Atoi_of_Sprintf_d. Qed.

Lemma Atoi_reads_Sprintf_d_witness :
  GoInt.in_range (-5000) /\ Atoi (Sprintf_d (-5000)) = Some (-5000).
Proof.
  assert (H : GoInt.in_range (-5000)).
  { unfold GoInt.in_range, GoInt.min_int, GoInt.max_int. lia. }
  split; [exact H | exact (Atoi_reads_Sprintf_d (-5000) H)].
Defined.

(** ** Chunk file names *)

Lemma fileNumberStr_value i :
  0 <= i <= GoInt.max_int -> parseDigits (Go.fileNumberStr i) 0 = Some i.
Proof.
  intros Hi. unfold Go.fileNumberStr. destruct (i <? 10).
  - change ("0" ++ Sprintf_d i) with (String "0"%char (Sprintf_d i)).
    rewrite parseDigits_cons. change (isDigit "0") with true. cbv iota.
    change (0 * 10 + (byteOf "0" - 48)) with 0. now apply Sprintf_d_value.
  - now apply Sprintf_d_value.
Qed.

Lemma fileNumberStr_bytes i c :
  0 <= i -> containsByte (Go.fileNumberStr i) c = true -> isDigit c = true.
Proof.
  intros Hi. unfold Go.fileNumberStr.
  assert (Hs : containsByte (Sprintf_d i) c = true -> isDigit c = true).
  { rewrite Sprintf_d_nonneg by assumption. intros H.
    apply formatBits_bytes in H; [|assumption]. destruct H; [assumption|discriminate]. }
  destruct (i <? 10); [|exact Hs].
  change ("0" ++ Sprintf_d i) with (String "0"%char (Sprintf_d i)).
  cbn [containsByte]. destruct (Ascii.eqb_spec "0" c) as [E|E]; [now subst c|exact Hs].
Qed.

Lemma plan_nth_name w h mh rw mi pfx chunks k c :
  Go.plan w h mh rw mi pfx = Some chunks \/ CLI.plan w h mh rw mi pfx = Some chunks ->
  nth_error chunks k = Some c ->
  0 <= Z.of_nat k + 1 <= GoInt.max_int /\
  fileName c = pfx ++ "_" ++ Go.fileNumberStr (Z.of_nat k + 1) ++ ".jpg".
Proof.
  intros Hplan Hk. apply plan_elements in Hplan as (n & Hn & ->).
  apply splitCount_le_max in Hn. apply nth_error_loop in Hk as [Hk ->].
  assert (Hidx : GoInt.add (Z.of_nat k) 1 = Z.of_nat k + 1).
  { unfold GoInt.add. apply wrap_in_range. int_consts. lia. }
  destruct (Go_chunk_name w h mh rw pfx (Z.of_nat k)) as [_ Hname].
  rewrite Hname, Hidx. split; [lia | reflexivity].
Qed.

(** X6.  Two different chunks of a plan never share a file name, so no
    chunk file overwrites another. *)
Theorem chunk_names_are_distinct :
  forall w h mh rw mi pfx chunks,
    Go.plan w h mh rw mi pfx = Some chunks \/ CLI.plan w h mh rw mi pfx = Some chunks ->
    forall j k cj ck,
      nth_error chunks j = Some cj -> nth_error chunks k = Some ck ->
      j <> k -> fileName cj <> fileName ck.
Proof.
  intros w h mh rw mi pfx chunks Hplan j k cj ck Hj Hk Hne Heq. apply Hne.
  destruct (plan_nth_name _ _ _ _ _ _ _ _ _ Hplan Hj) as [Rj Nj].
  destruct (plan_nth_name _ _ _ _ _ _ _ _ _ Hplan Hk) as [Rk Nk].
  rewrite Nj, Nk in Heq.
  apply append_inv_head in Heq. apply append_inv_head in Heq.
  apply append_inv_tail in Heq.
  pose proof (fileNumberStr_value _ Rj) as Vj.
  pose proof (fileNumberStr_value _ Rk) as Vk.
  rewrite Heq in Vj. rewrite Vj in Vk. injection Vk as Vk. lia.
Qed.

Lemma chunk_names_are_distinct_witness :
  fileName (Go.chunk 2000 55000 5000 0 "page" 0)
  <> fileName (Go.chunk 2000 55000 5000 0 "page" 10).
Proof.
  apply (chunk_names_are_distinct 2000 55000 5000 0 0 "page"
           (map (Go.chunk 2000 55000 5000 0 "page") (loopIndices 11))
           (or_introl eq_refl) 0%nat 10%nat); [reflexivity | reflexivity | discriminate].
Defined.

Lemma jpg_bytes c :
  containsByte ".jpg" c = true -> isWordByte c = true \/ c = "."%char.
Proof.
  cbn [containsByte].
  destruct (Ascii.eqb_spec "." c) as [E|E]; [now right|].
  destruct (Ascii.eqb_spec "j" c) as [<-|]; [now left|].
  destruct (Ascii.eqb_spec "p" c) as [<-|]; [now left|].
  destruct (Ascii.eqb_spec "g" c) as [<-|]; [now left|].
  discriminate.
Qed.

Lemma isDigit_isWordByte c : isDigit c = true -> isWordByte c = true.
Proof.
  unfold isDigit, isWordByte. intros H. rewrite H.
  rewrite orb_true_r. reflexivity.
Qed.

(** X7.  With a prefix that passes the handler's character check, every
    byte of every chunk file name is an ASCII letter, a digit, an underscore
    or a dot: no name holds a path separator. *)
Theorem accepted_prefix_gives_plain_names :
  forall w h mh rw mi pfx chunks,
    containsOnlyAllowedChars pfx allowedPrefixChars = true ->
    Go.plan w h mh rw mi pfx = Some chunks \/ CLI.plan w h mh rw mi pfx = Some chunks ->
    forall c b, In c chunks -> containsByte (fileName c) b = true ->
      isWordByte b = true \/ b = "."%char.
Proof.
  intros w h mh rw mi pfx chunks Hpfx Hplan c b Hin Hb.
  apply In_nth_error in Hin as [k Hk].
  destruct (plan_nth_name _ _ _ _ _ _ _ _ _ Hplan Hk) as [Rk Nk].
  rewrite Nk in Hb. rewrite !containsByte_append in Hb.
  apply orb_prop in Hb as [Hb|Hb].
  { left. rewrite <- allowedPrefixChars_spec.
    now apply (proj1 (allowed_bytes_iff pfx allowedPrefixChars
                        allowedPrefixChars_ascii) Hpfx). }
  apply orb_prop in Hb as [Hb|Hb].
  { left. cbn [containsByte] in Hb. rewrite orb_false_r in Hb.
    apply Ascii.eqb_eq in Hb. now subst b. }
  apply orb_prop in Hb as [Hb|Hb].
  { left. apply isDigit_isWordByte. apply (fileNumberStr_bytes (Z.of_nat k + 1)); [lia|assumption]. }
  now apply jpg_bytes.
Qed.

Lemma accepted_prefix_gives_plain_names_witness :
  containsOnlyAllowedChars "page" allowedPrefixChars = true /\
  (isWordByte "_" = true \/ "_"%char = "."%char).
Proof.
  split; [reflexivity|].
  apply (accepted_prefix_gives_plain_names 2000 12000 5000 0 0 "page"
           (map (Go.chunk 2000 12000 5000 0 "page") (loopIndices 3))
           eq_refl (or_introl eq_refl)
           (Go.chunk 2000 12000 5000 0 "page" 0) "_"%char).
  - left. reflexivity.
  - reflexivity.
Defined.

(** ** The two fetches *)

(** X8.  [downloadImage] succeeds exactly when the request can be built,
    the transport returns a response (of any status), the destination can be
    created and the copy completes; it then has made one GET, created the
    destination once and written the response body to it. *)
Theorem downloadImage_succeeds_iff :
  forall env url outputPath t,
    downloadImage env url outputPath = (t, Ok tt) <->
    exists status body,
      http_NewRequest env url = true /\
      client_Do env url = Response status body /\
      os_Create env outputPath = true /\
      io_Copy env outputPath = true /\
      t = [HttpGet url; CreateFile outputPath; WriteBody outputPath body].
Proof.
  intros env url outputPath t. unfold downloadImage. split.
  - intros H. inv_run.
    destruct (client_Do env url) as [|status body] eqn:Hdo; [discriminate H|].
    inv_run. exists status, body. repeat split; assumption || reflexivity.
  - intros (status & body & Hreq & Hdo & Hcreate & Hcopy & ->).
    rewrite Hreq, Hdo, Hcreate, Hcopy. reflexivity.
Qed.

(** X9.  [downloadImageWithCurl] succeeds exactly when [curl] exits without
    error and the destination exists afterwards with a size other than zero;
    it runs [curl] once, with [--fail]. *)
Theorem downloadImageWithCurl_succeeds_iff :
  forall env url outputPath t,
    let args := ["--silent"; "--show-error"; "--fail"; "--output"; outputPath; url] in
    downloadImageWithCurl env url outputPath = (t, Ok tt) <->
    fst (CombinedOutput env "curl" args) = true /\
    (exists size, os_Stat env outputPath = Some size /\ size <> 0) /\
    t = [Exec "curl" args].
Proof.
  intros env url outputPath t args. unfold downloadImageWithCurl. fold args. split.
  - intros H. inv_run.
    destruct (os_Stat env outputPath) as [size|] eqn:Hstat; [|discriminate H].
    destruct (Z.eqb_spec size 0); [discriminate H|].
    apply ret_Ok in H as [-> _].
    split; [assumption|]. split; [now exists size | reflexivity].
  - intros (Hrun & (size & Hstat & Hsize) & ->).
    rewrite Hrun, Hstat. destruct (Z.eqb_spec size 0); [contradiction|]. reflexivity.
Qed.

(** ** Traces of whole runs *)

Lemma trace_bind {A B} (m : M A) (k : A -> M B) :
  trace (bind m k)
  = (trace m ++ match outcome m with Ok a => trace (k a) | _ => [] end)%list.
Proof.
  destruct m as [t [a| |]]; unfold bind, trace, outcome; cbn [fst snd].
  - destruct (k a). reflexivity.
  - now rewrite app_nil_r.
  - now rewrite app_nil_r.
Qed.

Lemma Forall_bind {A B} (P : Event -> Prop) (m : M A) (k : A -> M B) :
  Forall P (trace m) -> (forall a, Forall P (trace (k a))) ->
  Forall P (trace (bind m k)).
Proof.
  intros Hm Hk. rewrite trace_bind. apply Forall_app. split; [assumption|].
  destruct (outcome m); [apply Hk | constructor | constructor].
Qed.

Lemma Forall_orFail (P : Event -> Prop) ok e : Forall P (trace (orFail ok e)).
Proof. destruct ok; constructor. Qed.

Ltac trace_step :=
  first
    [ apply Forall_bind; [|intros ?]
    | apply Forall_orFail
    | match goal with
      | |- Forall _ (trace (call _)) => constructor; [reflexivity | constructor]
      | |- Forall _ (trace (ret _)) => constructor
      | |- Forall _ (trace (fail _)) => constructor
      | |- Forall _ (trace panic) => constructor
      | |- Forall _ (trace (match ?x with _ => _ end)) => destruct x
      | |- Forall _ (trace (if ?x then _ else _)) => destruct x
      end ].

Ltac trace_all := repeat trace_step.

Section Purity.

Variable env : Env.

Lemma renderGo_in_process imagePath outputDir chunks :
  Forall (fun ev => isExec ev = false) (trace (renderGo env imagePath outputDir chunks)).
Proof. induction chunks as [|c rest IH]; cbn [renderGo]; trace_all. exact IH. Qed.

Lemma zipLoop_in_process p zipFile paths :
  Forall (fun ev => isExec ev = false) (trace (zipLoop env p zipFile paths)).
Proof.
  induction paths as [|path rest IH]; cbn [zipLoop]; unfold addFileToZip; trace_all.
  exact IH.
Qed.

Lemma renderCLI_commands imagePath outputDir chunks :
  Forall (fun ev => isTool ev = true)
         (trace (renderCLI env imagePath outputDir chunks)).
Proof. induction chunks as [|c rest IH]; cbn [renderCLI]; trace_all. exact IH. Qed.

(** X10.  However a run ends, with [UseCLI] unset it runs no external
    command.  With [UseCLI] set, the process itself still creates the working
    directory with [os.MkdirAll]; every call after it is a run of [curl],
    [vipsheader], [vips] or [zip]: no HTTP request is made and no file is
    created, written or encoded in-process.  ([os.Stat] on the download is a
    read, which the trace does not record.) *)
Theorem strategy_is_run_wide :
  forall p url pfx w mi,
    (UseCLI p = false ->
       Forall (fun ev => isExec ev = false) (trace (ProcessImage env p url pfx w mi))) /\
    (UseCLI p = true ->
       exists rest,
         trace (ProcessImage env p url pfx w mi)
         = MkdirAll (filepath_Join env (OutputBaseDir p)
                       (Sprintf_d (time_Now_Unix env))) :: rest /\
         Forall (fun ev => isTool ev = true) rest).
Proof.
  intros p url pfx w mi. unfold ProcessImage. split; intros ->.
  - unfold downloadImage, processImageWithGo. trace_all.
    + apply renderGo_in_process.
    + apply zipLoop_in_process.
  - cbv zeta. rewrite trace_bind. cbn [trace call fst app]. eexists.
    split; [reflexivity|].
    unfold downloadImageWithCurl, processImageWithCLI. trace_all.
    apply renderCLI_commands.
Qed.

End Purity.

Lemma strategy_is_run_wide_witness :
  Forall (fun ev => isExec ev = false)
    (trace (ProcessImage sampleEnv
              {| OutputBaseDir := "/data/"; MaxHeight := 5000; UseCLI := false |}
              "https://example.com/images/tall-image.jpg" "page" 0 0)) /\
  exists rest,
    trace (ProcessImage sampleEnv
             {| OutputBaseDir := "/data/"; MaxHeight := 5000; UseCLI := true |}
             "https://example.com/images/tall-image.jpg" "page" 0 0)
    = MkdirAll "/data/1700000000" :: rest /\
    Forall (fun ev => isTool ev = true) rest.
Proof.
  split.
  - apply (proj1 (strategy_is_run_wide sampleEnv
                    {| OutputBaseDir := "/data/"; MaxHeight := 5000; UseCLI := false |}
                    "https://example.com/images/tall-image.jpg" "page" 0 0)).
    reflexivity.
  - apply (proj2 (strategy_is_run_wide sampleEnv
                    {| OutputBaseDir := "/data/"; MaxHeight := 5000; UseCLI := true |}
                    "https://example.com/images/tall-image.jpg" "page" 0 0)).
    reflexivity.
Defined.

Lemma fetches_app t u : fetches (t ++ u) = (fetches t + fetches u)%nat.
Proof. unfold fetches. now rewrite filter_app, length_app. Qed.

Lemma no_fetch t : Forall (fun ev => isFetch ev = false) t -> fetches t = 0%nat.
Proof.
  unfold fetches. induction 1 as [|ev t Hev _ IH]; [reflexivity|].
  cbn [filter]. now rewrite Hev.
Qed.

Section OneFetch.

Variable env : Env.

Lemma renderGo_no_fetch imagePath outputDir chunks :
  Forall (fun ev => isFetch ev = false) (trace (renderGo env imagePath outputDir chunks)).
Proof. induction chunks as [|c rest IH]; cbn [renderGo]; trace_all. exact IH. Qed.

Lemma zipLoop_no_fetch p zipFile paths :
  Forall (fun ev => isFetch ev = false) (trace (zipLoop env p zipFile paths)).
Proof.
  induction paths as [|path rest IH]; cbn [zipLoop]; unfold addFileToZip; trace_all.
  exact IH.
Qed.

Lemma renderCLI_no_fetch imagePath outputDir chunks :
  Forall (fun ev => isFetch ev = false) (trace (renderCLI env imagePath outputDir chunks)).
Proof. induction chunks as [|c rest IH]; cbn [renderCLI]; trace_all. exact IH. Qed.

Lemma processImageWithGo_no_fetch p imagePath outputDir pfx w mi :
  Forall (fun ev => isFetch ev = false)
         (trace (processImageWithGo env p imagePath outputDir pfx w mi)).
Proof.
  unfold processImageWithGo. trace_all.
  - apply renderGo_no_fetch.
  - apply zipLoop_no_fetch.
Qed.

Lemma processImageWithCLI_no_fetch p imagePath outputDir pfx w mi :
  Forall (fun ev => isFetch ev = false)
         (trace (processImageWithCLI env p imagePath outputDir pfx w mi)).
Proof. unfold processImageWithCLI. trace_all. apply renderCLI_no_fetch. Qed.

Lemma downloadImage_fetches url outputPath :
  (fetches (trace (downloadImage env url outputPath)) <= 1)%nat.
Proof.
  unfold downloadImage.
  destruct (http_NewRequest env url); [|cbn; lia].
  destruct (client_Do env url); [cbn; lia|].
  destruct (os_Create env outputPath); [|cbn; lia].
  destruct (io_Copy env outputPath); cbn; lia.
Qed.

Lemma downloadImageWithCurl_fetches url outputPath :
  (fetches (trace (downloadImageWithCurl env url outputPath)) <= 1)%nat.
Proof.
  unfold downloadImageWithCurl.
  destruct (fst (CombinedOutput env "curl" _)); [|cbn; lia].
  destruct (os_Stat env outputPath) as [size|]; [|cbn; lia].
  destruct (size =? 0); cbn; lia.
Qed.

Lemma fetches_bind {A B} (m : M A) (k : A -> M B) a b :
  (fetches (trace m) <= a)%nat -> (forall x, (fetches (trace (k x)) <= b)%nat) ->
  (fetches (trace (bind m k)) <= a + b)%nat.
Proof.
  intros Hm Hk. rewrite trace_bind, fetches_app.
  destruct (outcome m) as [x| |]; [specialize (Hk x)|cbn|cbn]; lia.
Qed.

(** X11.  However a run ends, the image is fetched at most once: nothing is
    retried. *)
Theorem at_most_one_fetch :
  forall p url pfx w mi,
    (fetches (trace (ProcessImage env p url pfx w mi)) <= 1)%nat.
Proof.
  intros p url pfx w mi. unfold ProcessImage. cbv zeta.
  apply (fetches_bind _ _ 0 1); [cbn; lia|]. intros _.
  apply (fetches_bind _ _ 0 1).
  { rewrite (no_fetch _ (Forall_orFail _ _ _)). lia. }
  intros _.
  apply (fetches_bind _ _ 1 0).
  { destruct (UseCLI p); [apply downloadImageWithCurl_fetches | apply downloadImage_fetches]. }
  intros _. rewrite no_fetch; [lia|].
  destruct (UseCLI p); [apply processImageWithCLI_no_fetch | apply processImageWithGo_no_fetch].
Qed.

End OneFetch.

(** ** Early exits *)

(** X12.  If the working directory cannot be created the run stops there;
    if the fetch fails the run returns the fetch's own error, having made no
    call after the fetch. *)
Theorem failed_setup_or_fetch_stops_the_run :
  forall env p url pfx w mi,
    let outputDir :=
      filepath_Join env (OutputBaseDir p) (Sprintf_d (time_Now_Unix env)) in
    let tempImagePath :=
      filepath_Join env outputDir "original_image"
      ++ (if hasPngSuffix url then ".png" else ".jpg") in
    (os_MkdirAll env outputDir = false ->
       ProcessImage env p url pfx w mi
       = ([MkdirAll outputDir], Fail FailedToCreateOutputDirectory)) /\
    (os_MkdirAll env outputDir = true ->
       forall t e,
         (if UseCLI p then downloadImageWithCurl env url tempImagePath
          else downloadImage env url tempImagePath) = (t, Fail e) ->
         ProcessImage env p url pfx w mi = (MkdirAll outputDir :: t, Fail e)).
Proof.
  intros env p url pfx w mi outputDir tempImagePath. unfold ProcessImage.
  fold outputDir. cbv zeta. fold tempImagePath. split.
  - intros ->. reflexivity.
  - intros -> t e ->. reflexivity.
Qed.

Lemma failed_setup_or_fetch_stops_the_run_witness :
  ProcessImage offlineEnv (sampleProcessor false)
    "https://example.com/images/tall-image.jpg" "page" 0 0
  = ([MkdirAll "/data/1700000000";
      HttpGet "https://example.com/images/tall-image.jpg"],
     Fail FailedToDownloadImage).
Proof.
  apply (proj2 (failed_setup_or_fetch_stops_the_run offlineEnv (sampleProcessor false)
                  "https://example.com/images/tall-image.jpg" "page" 0 0));
    reflexivity.
Defined.

(** ** What a successful run returns *)

Section Success.

Variable env : Env.

Lemma renderGo_Ok imagePath outputDir chunks t paths :
  renderGo env imagePath outputDir chunks = (t, Ok paths) ->
  paths = map (fun c => filepath_Abs env (filepath_Join env outputDir (fileName c))) chunks /\
  forall c, In c chunks ->
    In (EncodeChunk (filepath_Join env outputDir (fileName c)) (hasPngSuffix imagePath) c) t.
Proof.
  revert t paths. induction chunks as [|c rest IH]; intros t paths H.
  - apply ret_Ok in H as [-> <-]. split; [reflexivity | intros c []].
  - cbn [renderGo] in H. inv_run.
    match goal with H : renderGo _ _ _ _ = _ |- _ => apply IH in H as [-> Hin] end.
    subst paths. split; [reflexivity|].
    intros c' [<-|Hc]; rewrite !in_app_iff; cbn [In]; [tauto|].
    specialize (Hin c' Hc). tauto.
Qed.

Lemma zipLoop_Ok p zipFile paths t images :
  zipLoop env p zipFile paths = (t, Ok images) ->
  images = map (filepath_Rel env (OutputBaseDir p)) paths /\
  forall path, In path paths ->
    In (ZipEntry zipFile (filepath_Base env path) path) t.
Proof.
  revert t images. induction paths as [|path rest IH]; intros t images H.
  - apply ret_Ok in H as [-> <-]. split; [reflexivity | intros c []].
  - cbn [zipLoop] in H. unfold addFileToZip in H. inv_run.
    match goal with H : zipLoop _ _ _ _ = _ |- _ => apply IH in H as [-> Hin] end.
    subst images. split; [reflexivity|].
    intros path' [<-|Hc]; rewrite !in_app_iff; cbn [In]; [tauto|].
    specialize (Hin path' Hc). tauto.
Qed.

Lemma renderCLI_Ok imagePath outputDir chunks t paths :
  renderCLI env imagePath outputDir chunks = (t, Ok paths) ->
  paths = map (fun c => filepath_Abs env (filepath_Join env outputDir (fileName c))) chunks /\
  forall c, In c chunks ->
    In (Exec "vips" ["crop"; imagePath; filepath_Join env outputDir (fileName c);
                     Sprintf_d (xOffset c); Sprintf_d (startY c);
                     Sprintf_d (outWidth c);
                     Sprintf_d (GoInt.sub (endY c) (startY c))]) t /\
    fst (CombinedOutput env "vips"
           ["crop"; imagePath; filepath_Join env outputDir (fileName c);
            Sprintf_d (xOffset c); Sprintf_d (startY c);
            Sprintf_d (outWidth c);
            Sprintf_d (GoInt.sub (endY c) (startY c))]) = true.
Proof.
  revert t paths. induction chunks as [|c rest IH]; intros t paths H.
  - apply ret_Ok in H as [-> <-]. split; [reflexivity | intros c []].
  - cbn [renderCLI] in H. inv_run.
    match goal with H : renderCLI _ _ _ _ = _ |- _ => apply IH in H as [-> Hin] end.
    subst paths. split; [reflexivity|].
    intros c' [<-|Hc].
    + split; [|assumption]. rewrite !in_app_iff; cbn [In]; tauto.
    + destruct (Hin c' Hc) as [Hev Hok]. split; [|assumption].
      rewrite !in_app_iff; cbn [In]; tauto.
Qed.

(** X13.  A successful in-process run decoded the image, rendered every
    chunk of the plan for its dimensions and stored each under its base name
    in the archive; [images] lists the chunk files, relative to the storage
    root, in plan order. *)
Theorem processImageWithGo_result :
  forall p imagePath outputDir pfx rw mi t resp,
    processImageWithGo env p imagePath outputDir pfx rw mi = (t, Ok resp) ->
    exists w h chunks,
      image_Decode env imagePath = Some (w, h) /\
      Go.plan w h (MaxHeight p) rw mi pfx = Some chunks /\
      Status resp = "success" /\
      Images resp
      = map (fun c => filepath_Rel env (OutputBaseDir p)
                        (filepath_Abs env (filepath_Join env outputDir (fileName c))))
            chunks /\
      forall c, In c chunks ->
        let path := filepath_Join env outputDir (fileName c) in
        In (EncodeChunk path (hasPngSuffix imagePath) c) t /\
        In (ZipEntry (filepath_Join env outputDir (pfx ++ ".zip"))
                     (filepath_Base env (filepath_Abs env path))
                     (filepath_Abs env path)) t.
Proof.
  intros p imagePath outputDir pfx rw mi t resp H.
  unfold processImageWithGo in H. inv_run.
  destruct (image_Decode env imagePath) as [[w h]|]; [|discriminate H].
  destruct (Go.splitCount h (MaxHeight p) mi) as [n|] eqn:Hn; [|discriminate H].
  inv_run.
  match goal with H : renderGo _ _ _ _ = _ |- _ => apply renderGo_Ok in H as [-> Hr] end.
  match goal with H : zipLoop _ _ _ _ = _ |- _ => apply zipLoop_Ok in H as [-> Hz] end.
  subst resp. exists w, h, (map (Go.chunk w h (MaxHeight p) rw pfx) (loopIndices n)).
  split; [reflexivity|]. split; [unfold Go.plan; now rewrite Hn|]. split; [reflexivity|].
  split; [cbn [Images]; now rewrite map_map|].
  intros c Hc path. split.
  - rewrite !in_app_iff. specialize (Hr c Hc). tauto.
  - rewrite !in_app_iff.
    assert (Hp : In (filepath_Abs env path)
                    (map (fun c => filepath_Abs env (filepath_Join env outputDir (fileName c)))
                         (map (Go.chunk w h (MaxHeight p) rw pfx) (loopIndices n)))).
    { apply in_map_iff. now exists c. }
    specialize (Hz _ Hp). tauto.
Qed.

(** X14.  A successful external-tool run parsed the dimensions from
    [vipsheader], ran [vips crop] with each planned rectangle, and lists the
    chunk files, relative to the storage root, in plan order. *)
Theorem processImageWithCLI_result :
  forall p imagePath outputDir pfx rw mi t resp,
    processImageWithCLI env p imagePath outputDir pfx rw mi = (t, Ok resp) ->
    exists w h chunks,
      parseVipsheader (snd (CombinedOutput env "vipsheader" [imagePath])) = inr (w, h) /\
      CLI.plan w h (MaxHeight p) rw mi pfx = Some chunks /\
      Status resp = "success" /\
      Images resp
      = map (fun c => filepath_Rel env (OutputBaseDir p)
                        (filepath_Abs env (filepath_Join env outputDir (fileName c))))
            chunks /\
      forall c, In c chunks ->
        In (Exec "vips" ["crop"; imagePath; filepath_Join env outputDir (fileName c);
                         Sprintf_d (xOffset c); Sprintf_d (startY c);
                         Sprintf_d (outWidth c);
                         Sprintf_d (GoInt.sub (endY c) (startY c))]) t.
Proof.
  intros p imagePath outputDir pfx rw mi t resp H.
  unfold processImageWithCLI in H. inv_run.
  destruct (CombinedOutput env "vipsheader" [imagePath]) as [ok output].
  inv_run. cbn [snd].
  destruct (parseVipsheader output) as [e|[w h]]; [discriminate H|].
  destruct (CLI.splitCount h (MaxHeight p) mi) as [n|] eqn:Hn; [|discriminate H].
  inv_run.
  match goal with H : renderCLI _ _ _ _ = _ |- _ => apply renderCLI_Ok in H as [-> Hr] end.
  subst resp. exists w, h, (map (CLI.chunk w h (MaxHeight p) rw pfx) (loopIndices n)).
  split; [reflexivity|]. split; [unfold CLI.plan; now rewrite Hn|]. split; [reflexivity|].
  split; [cbn [Images]; now rewrite map_map|].
  intros c Hc. rewrite !in_app_iff. destruct (Hr c Hc) as [Hev _]. tauto.
Qed.

End Success.

Lemma processImageWithGo_result_witness :
  exists t resp,
    processImageWithGo sampleEnv (sampleProcessor false)
      "/data/1700000000/original_image.jpg" "/data/1700000000" "page" 0 0
    = (t, Ok resp) /\
    Images resp = ["1700000000/page_01.jpg"; "1700000000/page_02.jpg";
                   "1700000000/page_03.jpg"].
Proof.
  destruct (processImageWithGo sampleEnv (sampleProcessor false)
              "/data/1700000000/original_image.jpg" "/data/1700000000" "page" 0 0)
    as [t [resp| |]] eqn:E; try (vm_compute in E; discriminate E).
  exists t, resp. split; [reflexivity|].
  destruct (processImageWithGo_result sampleEnv _ _ _ _ _ _ t resp E)
    as (w & h & chunks & Hd & Hp & _ & Hi & _).
  injection Hd as <- <-. vm_compute in Hp. injection Hp as <-.
  rewrite Hi. reflexivity.
Defined.

Lemma processImageWithCLI_result_witness :
  exists t resp,
    processImageWithCLI sampleEnv (sampleProcessor true)
      "/data/1700000000/original_image.jpg" "/data/1700000000" "page" 1500 2
    = (t, Ok resp) /\
    Images resp = ["1700000000/page_01.jpg"; "1700000000/page_02.jpg"].
Proof.
  destruct (processImageWithCLI sampleEnv (sampleProcessor true)
              "/data/1700000000/original_image.jpg" "/data/1700000000" "page" 1500 2)
    as [t [resp| |]] eqn:E; try (vm_compute in E; discriminate E).
  exists t, resp. split; [reflexivity|].
  destruct (processImageWithCLI_result sampleEnv _ _ _ _ _ _ t resp E)
    as (w & h & chunks & Hd & Hp & _ & Hi & _).
  vm_compute in Hd. injection Hd as <- <-. vm_compute in Hp. injection Hp as <-.
  rewrite Hi. reflexivity.
Defined.

(** ** Encoding of the chunks *)

Lemma lowerASCII_append (a b : string) :
  lowerASCII (a ++ b) = lowerASCII a ++ lowerASCII b.
Proof. induction a as [|c a IH]; [reflexivity|]. cbn [append lowerASCII]. now rewrite IH. Qed.

Lemma hasPngSuffix_png s : hasPngSuffix (s ++ ".png") = true.
Proof. unfold hasPngSuffix. rewrite lowerASCII_append. apply HasSuffix_append. Qed.

Lemma hasPngSuffix_jpg s : hasPngSuffix (s ++ ".jpg") = false.
Proof.
  unfold hasPngSuffix, HasSuffix. rewrite lowerASCII_append, reverse_append. reflexivity.
Qed.

Lemma Go_chunk_jpg w h mh rw pfx i :
  HasSuffix (fileName (Go.chunk w h mh rw pfx i)) ".jpg" = true.
Proof.
  destruct (Go_chunk_name w h mh rw pfx i) as [_ ->].
  rewrite <- !append_assoc. apply HasSuffix_append.
Qed.

Section Encoding.

Variable env : Env.

Lemma renderGo_encoding imagePath outputDir chunks :
  Forall (fun c => HasSuffix (fileName c) ".jpg" = true) chunks ->
  Forall (encodesAs (hasPngSuffix imagePath))
         (trace (renderGo env imagePath outputDir chunks)).
Proof.
  induction 1 as [|c rest Hc _ IH]; cbn [renderGo]; [constructor|].
  apply Forall_bind; [repeat constructor|]. intros _.
  apply Forall_bind; [apply Forall_orFail|]. intros _.
  apply Forall_bind; [constructor; [split; [reflexivity|assumption]|constructor]|].
  intros _.
  apply Forall_bind; [apply Forall_orFail|]. intros _.
  apply Forall_bind; [exact IH|]. intros paths. constructor.
Qed.

Lemma zipLoop_encoding png p zipFile paths :
  Forall (encodesAs png) (trace (zipLoop env p zipFile paths)).
Proof.
  induction paths as [|path rest IH]; cbn [zipLoop]; unfold addFileToZip; [constructor|].
  apply Forall_bind.
  { apply Forall_bind; [repeat constructor|]. intros _. apply Forall_orFail. }
  intros _. apply Forall_bind; [exact IH|]. intros images. constructor.
Qed.

Lemma renderCLI_encoding png imagePath outputDir chunks :
  Forall (encodesAs png) (trace (renderCLI env imagePath outputDir chunks)).
Proof.
  induction chunks as [|c rest IH]; cbn [renderCLI]; [constructor|].
  apply Forall_bind; [repeat constructor|]. intros _.
  apply Forall_bind; [apply Forall_orFail|]. intros _.
  apply Forall_bind; [exact IH|]. intros paths. constructor.
Qed.

(** X15.  In every run, each chunk is encoded as PNG exactly when the URL
    ends in [.png] (in any letter case), and is written to a file whose name
    ends in [.jpg] either way. *)
Theorem chunks_are_encoded_by_url_suffix :
  forall p url pfx w mi,
    Forall (encodesAs (hasPngSuffix url)) (trace (ProcessImage env p url pfx w mi)).
Proof.
  intros p url pfx w mi. unfold ProcessImage. cbv zeta.
  set (outputDir := filepath_Join env (OutputBaseDir p) (Sprintf_d (time_Now_Unix env))).
  set (imagePath := filepath_Join env outputDir "original_image"
                    ++ (if hasPngSuffix url then ".png" else ".jpg")).
  assert (Hpng : hasPngSuffix imagePath = hasPngSuffix url).
  { unfold imagePath. destruct (hasPngSuffix url);
      [apply hasPngSuffix_png | apply hasPngSuffix_jpg]. }
  rewrite <- Hpng.
  apply Forall_bind; [repeat constructor|]. intros _.
  apply Forall_bind; [apply Forall_orFail|]. intros _.
  apply Forall_bind.
  { destruct (UseCLI p); unfold downloadImageWithCurl, downloadImage.
    - apply Forall_bind; [repeat constructor|]. intros _.
      apply Forall_bind; [apply Forall_orFail|]. intros _.
      destruct (os_Stat env imagePath) as [size|]; [destruct (size =? 0)|]; constructor.
    - apply Forall_bind; [apply Forall_orFail|]. intros _.
      apply Forall_bind; [repeat constructor|]. intros _.
      destruct (client_Do env url); [constructor|].
      apply Forall_bind; [repeat constructor|]. intros _.
      apply Forall_bind; [apply Forall_orFail|]. intros _.
      apply Forall_bind; [repeat constructor|]. intros _.
      apply Forall_orFail. }
  intros _. destruct (UseCLI p).
  - unfold processImageWithCLI.
    apply Forall_bind; [repeat constructor|]. intros _.
    destruct (CombinedOutput env "vipsheader" [imagePath]) as [ok output].
    apply Forall_bind; [apply Forall_orFail|]. intros _.
    destruct (parseVipsheader output) as [e|[width totalHeight]]; [constructor|].
    destruct (CLI.splitCount totalHeight (MaxHeight p) mi); [|constructor].
    apply Forall_bind; [apply renderCLI_encoding|]. intros paths.
    apply Forall_bind; [repeat constructor|]. intros _.
    apply Forall_bind; [apply Forall_orFail|]. intros _. constructor.
  - unfold processImageWithGo.
    apply Forall_bind; [apply Forall_orFail|]. intros _.
    destruct (image_Decode env imagePath) as [[originalWidth totalHeight]|]; [|constructor].
    destruct (Go.splitCount totalHeight (MaxHeight p) mi); [|constructor].
    apply Forall_bind.
    { apply renderGo_encoding. apply Forall_forall. intros c Hc.
      apply in_map_iff in Hc as (i & <- & _). apply Go_chunk_jpg. }
    intros paths.
    apply Forall_bind; [repeat constructor|]. intros _.
    apply Forall_bind; [apply Forall_orFail|]. intros _.
    apply Forall_bind; [apply zipLoop_encoding|]. intros images.
    apply Forall_bind; [apply Forall_orFail|]. intros _. constructor.
Qed.

End Encoding.

Example png_source_is_encoded_as_png_in_jpg_files :
  In (EncodeChunk "/data/1700000000/page_01.jpg" true
        (Go.chunk 2000 12000 5000 0 "page" 0))
     (trace (ProcessImage sampleEnv (sampleProcessor false)
               "https://example.com/scans/Tall.PNG" "page" 0 0)).
Proof. vm_compute. tauto. Qed.

(** ** The request handler *)

(** X16.  If the handler makes any call at all, the request was a POST whose
    body decoded, with a non-empty url, a max_images >= 0 and a prefix of
    ASCII letters, digits and underscores only; and its first call creates
    the working directory. *)
Theorem pipeline_runs_only_for_valid_requests :
  forall cfg env method body,
    trace (handleSplitImage cfg env method body) <> [] ->
    method = "POST" /\
    exists req,
      body = Some req /\ URL req <> "" /\ 0 <= MaxImages req /\
      (forall c, containsByte (ImagesPrefix req) c = true -> isWordByte c = true) /\
      exists rest,
        trace (handleSplitImage cfg env method body)
        = MkdirAll (filepath_Join env (filePath cfg) (Sprintf_d (time_Now_Unix env)))
          :: rest.
Proof.
  intros cfg env method body. unfold handleSplitImage.
  destruct (String.eqb_spec method "POST") as [->|]; cbn [negb]; [|intros Ht; now elim Ht].
  destruct body as [req|]; [|intros Ht; now elim Ht].
  destruct (String.eqb_spec (URL req) "") as [|Hurl]; [intros Ht; now elim Ht|].
  destruct (Z.ltb_spec (MaxImages req) 0) as [|Hmax]; [intros Ht; now elim Ht|].
  destruct (containsOnlyAllowedChars (ImagesPrefix req) allowedPrefixChars) eqn:Hp;
    cbn [negb]; [|intros Ht; now elim Ht].
  intros _. split; [reflexivity|]. exists req.
  split; [reflexivity|]. split; [assumption|]. split; [assumption|]. split.
  - intros c Hc. rewrite <- allowedPrefixChars_spec.
    now apply (proj1 (allowed_bytes_iff _ _ allowedPrefixChars_ascii) Hp).
  - set (r := WithZipFlag.ProcessImage _ _ _ _ _ _ _).
    assert (Hr : exists rest, trace r
                 = MkdirAll (filepath_Join env (filePath cfg)
                               (Sprintf_d (time_Now_Unix env))) :: rest).
    { unfold r, WithZipFlag.ProcessImage. cbv zeta. rewrite trace_bind. cbn [trace call fst app].
      eexists. reflexivity. }
    destruct Hr as [rest Hr]. exists rest.
    destruct r as [t [resp|e|]]; exact Hr.
Qed.

Lemma pipeline_runs_only_for_valid_requests_witness :
  URL (sampleRequest "page" true) <> "" /\ 0 <= MaxImages (sampleRequest "page" true).
Proof.
  destruct (pipeline_runs_only_for_valid_requests (sampleConfig false) sampleEnv "POST"
              (Some (sampleRequest "page" true)))
    as (_ & req & Hreq & Hurl & Hmax & _).
  - vm_compute. discriminate.
  - injection Hreq as <-. split; assumption.
Defined.

(** X17.  A result is only ever sent with status 200, for a run that
    succeeded; a processing error is sent with status 500; the handler's own
    messages are sent with 400 or 405, after no call at all. *)
Theorem handler_status_matches_outcome :
  forall cfg env method body t status message,
    handleSplitImage cfg env method body = (t, Ok (status, message)) ->
    match message with
    | Result resp =>
        status = 200 /\
        exists req, body = Some req /\
          WithZipFlag.ProcessImage env
            {| OutputBaseDir := filePath cfg; MaxHeight := maxHeight cfg;
               UseCLI := useCLI cfg |}
            (urlHost cfg ++ URL req) (ImagesPrefix req) (Width req) (MaxImages req)
            (CreateZip req)
          = (t, Ok resp)
    | ErrorOf e =>
        status = 500 /\
        exists req, body = Some req /\
          WithZipFlag.ProcessImage env
            {| OutputBaseDir := filePath cfg; MaxHeight := maxHeight cfg;
               UseCLI := useCLI cfg |}
            (urlHost cfg ++ URL req) (ImagesPrefix req) (Width req) (MaxImages req)
            (CreateZip req)
          = (t, Fail e)
    | ErrorMessage _ => (status = 400 \/ status = 405) /\ t = []
    end.
Proof.
  intros cfg env method body t status message. unfold handleSplitImage.
  destruct (negb (method =? "POST")%string).
  { intros H. injection H as <- <- <-. split; [now right | reflexivity]. }
  destruct body as [req|].
  2:{ intros H. injection H as <- <- <-. split; [now left | reflexivity]. }
  destruct (URL req =? "")%string.
  { intros H. injection H as <- <- <-. split; [now left | reflexivity]. }
  destruct (MaxImages req <? 0).
  { intros H. injection H as <- <- <-. split; [now left | reflexivity]. }
  destruct (negb (containsOnlyAllowedChars (ImagesPrefix req) allowedPrefixChars)).
  { intros H. injection H as <- <- <-. split; [now left | reflexivity]. }
  destruct (WithZipFlag.ProcessImage _ _ _ _ _ _ _) as [t' [resp|e|]] eqn:E; intros H;
    try discriminate H;
    injection H as <- <- <-; (split; [reflexivity|]); exists req;
    (split; [reflexivity | exact E]).
Qed.

Lemma handler_status_matches_outcome_witness :
  handleSplitImage (sampleConfig false) notFoundEnv "POST"
    (Some (sampleRequest "page" true))
  = ([MkdirAll "/data/1700000000";
      HttpGet "https://example.com/images/tall-image.jpg";
      CreateFile "/data/1700000000/original_image.jpg";
      WriteBody "/data/1700000000/original_image.jpg" "404 page not found"],
     Ok (500, ErrorOf FailedToDecodeImage)) /\
  500 = 500.
Proof.
  assert (H : handleSplitImage (sampleConfig false) notFoundEnv "POST"
                (Some (sampleRequest "page" true))
              = ([MkdirAll "/data/1700000000";
                  HttpGet "https://example.com/images/tall-image.jpg";
                  CreateFile "/data/1700000000/original_image.jpg";
                  WriteBody "/data/1700000000/original_image.jpg" "404 page not found"],
                 Ok (500, ErrorOf FailedToDecodeImage))) by reflexivity.
  split; [exact H|].
  exact (proj1 (handler_status_matches_outcome _ _ _ _ _ _ _ H)).
Defined.

(** ** Authentication *)

(** X18.  With a user name or a password left empty the route is served
    without authentication.  With both set, the handler runs only for exactly
    the configured pair; any other or missing credentials get the 401
    challenge and no call is made. *)
Theorem route_authentication :
  forall cfg env credentials method body,
    let handler := apiReply (handleSplitImage cfg env method body) in
    (username cfg = "" \/ password cfg = "" ->
       splitImageRoute cfg env credentials method body = handler) /\
    (username cfg <> "" -> password cfg <> "" ->
       (credentials = Some (username cfg, password cfg) ->
          splitImageRoute cfg env credentials method body = handler) /\
       (credentials <> Some (username cfg, password cfg) ->
          splitImageRoute cfg env credentials method body
          = ([], Ok (Challenge 401 "Unauthorized")))).
Proof.
  intros cfg env credentials method body handler. unfold splitImageRoute. fold handler.
  split.
  - intros [->| ->]; [reflexivity|]. cbn [String.eqb negb]. now rewrite andb_false_r.
  - intros Hu Hp.
    destruct (String.eqb_spec (username cfg) ""); [contradiction|].
    destruct (String.eqb_spec (password cfg) ""); [contradiction|].
    cbn [negb andb]. unfold basicAuth. split.
    + intros ->. now rewrite !String.eqb_refl.
    + intros Hc. destruct credentials as [[u p]|]; [|reflexivity].
      destruct (String.eqb_spec u (username cfg)) as [->|]; [|reflexivity].
      destruct (String.eqb_spec p (password cfg)) as [->|]; [|reflexivity].
      now elim Hc.
Qed.

Lemma route_authentication_witness :
  splitImageRoute sampleAuthConfig sampleEnv (Some ("splitter", "guess")) "POST"
    (Some (sampleRequest "page" true))
  = ([], Ok (Challenge 401 "Unauthorized")).
Proof.
  apply (proj2 (route_authentication sampleAuthConfig sampleEnv
                  (Some ("splitter", "guess")) "POST"
                  (Some (sampleRequest "page" true))));
    discriminate.
Defined.

(** ** Start-up checks *)

Lemma land_bit2 m : Z.land m 4 = if Z.testbit m 2 then 4 else 0.
Proof.
  apply Z.bits_inj'. intros n Hn. rewrite Z.land_spec.
  change 4 with (2 ^ 2) at 1. rewrite Z.pow2_bits_eqb by lia.
  destruct (Z.eqb_spec 2 n) as [<-|Hne].
  - rewrite andb_true_r. destruct (Z.testbit m 2); reflexivity.
  - rewrite andb_false_r. destruct (Z.testbit m 2).
    + change 4 with (2 ^ 2). rewrite Z.pow2_bits_eqb by lia.
      symmetry. now apply Z.eqb_neq.
    + symmetry. apply Z.bits_0.
Qed.

Lemma checkIfIsWritable_iff :
  forall stat file,
    checkIfIsWritable stat file = true <->
    exists info, stat file = StatOk info /\ Z.testbit (Mode info) 2 = true.
Proof.
  intros stat file. unfold checkIfIsWritable, Perm, ModePerm.
  destruct (stat file) as [info| |].
  - change (Z.shiftl 1 2) with 4.
    rewrite <- Z.land_assoc. change (Z.land 511 4) with 4. rewrite land_bit2.
    destruct (Z.testbit (Mode info) 2) eqn:Hb.
    + split; [intros _; now exists info | reflexivity].
    + split; [discriminate|]. intros (info' & E & Hb'). injection E as <-. congruence.
  - split; [discriminate | intros (info & E & _); discriminate].
  - split; [discriminate | intros (info & E & _); discriminate].
Qed.

(** X19.  [checkIfIsWritable] answers [true] exactly when [os.Stat] succeeds
    and bit 2 of the mode (value 4, read permission for others) is set; the
    write bits play no part. *)
Theorem checkIfIsWritable_reads_bit_two :
  forall stat file,
    checkIfIsWritable stat file = true <->
    exists info, stat file = StatOk info /\ Z.testbit (Mode info) 2 = true.
Proof. exact checkIfIsWritable_iff. Qed.

Lemma hasPrefix_weaken (a b p : string) :
  hasPrefix a p = true -> hasPrefix (a ++ b) p = true.
Proof.
  revert a. induction p as [|c p IH]; intros a H; [now destruct (a ++ b)|].
  destruct a as [|x a]; [discriminate|]. cbn [append hasPrefix] in *.
  apply andb_prop in H as [-> H]. cbn [andb]. now apply IH.
Qed.

(** X20.  [main] reports no fatal error exactly when both settings are
    non-empty, the url host starts with [http://] or [https://] and ends with
    a slash, the file path starts and ends with a slash, and [os.Stat] finds
    it to be a directory with bit 2 of its mode set. *)
Theorem accepted_configuration :
  forall stat cfg,
    startupFatals stat cfg = [] <->
    urlHost cfg <> "" /\ filePath cfg <> "" /\
    (hasPrefix (urlHost cfg) "http://" = true \/ hasPrefix (urlHost cfg) "https://" = true) /\
    HasSuffix (urlHost cfg) "/" = true /\
    hasPrefix (filePath cfg) "/" = true /\ HasSuffix (filePath cfg) "/" = true /\
    exists info, stat (filePath cfg) = StatOk info /\ IsDir info = true /\
                 Z.testbit (Mode info) 2 = true.
Proof.
  intros stat cfg. unfold startupFatals.
  pose proof (checkIfIsWritable_iff stat (filePath cfg)) as Hw.
  unfold checkIfFileExists, checkIfIsDirectory in *.
  destruct (String.eqb_spec (urlHost cfg) "") as [Eu|Eu];
    [split; [discriminate | intros (H & _); contradiction]|].
  destruct (String.eqb_spec (filePath cfg) "") as [Ef|Ef];
    [split; [discriminate | intros (_ & H & _); contradiction]|].
  cbn [orb app].
  destruct (hasPrefix (urlHost cfg) "http://") eqn:H1;
    destruct (hasPrefix (urlHost cfg) "https://") eqn:H2; cbn [orb Bool.eqb app];
    try (split; [discriminate | intros (_ & _ & [H|H] & _); discriminate]).
  all: destruct (HasSuffix (urlHost cfg) "/") eqn:H3; cbn [Bool.eqb app];
    try (split; [discriminate | intros (_ & _ & _ & H & _); discriminate]).
  all: destruct (HasSuffix (filePath cfg) "/") eqn:H4; cbn [andb negb app];
    try (split; [discriminate | intros (_ & _ & _ & _ & _ & H & _); discriminate]).
  all: destruct (hasPrefix (filePath cfg) "/") eqn:H5; cbn [andb negb app];
    try (split; [discriminate | intros (_ & _ & _ & _ & H & _); discriminate]).
  all: destruct (stat (filePath cfg)) as [info| |] eqn:Hs; cbn [negb app];
    try (split; [discriminate | intros (_ & _ & _ & _ & _ & _ & i & E & _); discriminate]).
  all: destruct (IsDir info) eqn:Hd; cbn [negb app];
    try (split; [discriminate
                | intros (_ & _ & _ & _ & _ & _ & i & E & Hi & _);
                  injection E as <-; congruence]).
  all: destruct (checkIfIsWritable stat (filePath cfg)) eqn:Hc; cbn [negb app].
  all: try (split; [discriminate
                   | intros (_ & _ & _ & _ & _ & _ & i & E & _ & Hb);
                     assert (false = true) by (apply Hw; exists i; split; assumption);
                     discriminate]).
  all: split; [intros _|reflexivity];
    destruct (proj1 Hw eq_refl) as (i & E & Hb); injection E as <-;
    repeat split; try assumption; try (now left); try (now right);
    exists info; repeat split; assumption.
Qed.

(** ** Trimming and splitting *)

Lemma plainByte_not_space c : plainByte c = true -> isAsciiSpace c = false.
Proof. unfold plainByte. intros H. apply andb_prop in H as [_ H]. now destruct (isAsciiSpace c). Qed.

Lemma plainByte_ascii c : plainByte c = true -> byteOf c < 128.
Proof. unfold plainByte. intros H. apply andb_prop in H as [H _]. now apply Z.ltb_lt. Qed.

Lemma trimLeftSpace_plain a r :
  plainByte a = true -> trimLeftSpace (String a r) = String a r.
Proof.
  intros H. pose proof (plainByte_not_space a H) as Hs.
  pose proof (plainByte_ascii a H) as Ha.
  cbn [trimLeftSpace]. rewrite Hs.
  assert (H2 : forall b, isSpace2 a b = false).
  { intros b. unfold isSpace2. destruct (Z.eqb_spec (byteOf a) 194); [lia | reflexivity]. }
  assert (H3 : forall b c, isSpace3 a b c = false).
  { intros b c. unfold isSpace3.
    destruct (Z.eqb_spec (byteOf a) 225); [lia|].
    destruct (Z.eqb_spec (byteOf a) 226); [lia|].
    destruct (Z.eqb_spec (byteOf a) 227); [lia|]. reflexivity. }
  destruct r as [|b [|c r]]; rewrite ?H2, ?H3; reflexivity.
Qed.

Lemma trimRightSpaceRev_plain c r :
  plainByte c = true -> trimRightSpaceRev (String c r) = String c r.
Proof.
  intros H. pose proof (plainByte_not_space c H) as Hs.
  pose proof (plainByte_ascii c H) as Hc.
  cbn [trimRightSpaceRev]. rewrite Hs.
  assert (H2 : forall b, isSpace2 b c = false).
  { intros b. unfold isSpace2.
    destruct (Z.eqb_spec (byteOf c) 133); [lia|].
    destruct (Z.eqb_spec (byteOf c) 160); [lia|]. apply andb_false_r. }
  assert (H3 : forall a b, isSpace3 a b c = false).
  { intros a b. unfold isSpace3.
    destruct (Z.eqb_spec (byteOf c) 128); [lia|].
    destruct (Z.leb_spec 128 (byteOf c)); [lia|].
    destruct (Z.eqb_spec (byteOf c) 168); [lia|].
    destruct (Z.eqb_spec (byteOf c) 169); [lia|].
    destruct (Z.eqb_spec (byteOf c) 175); [lia|].
    destruct (Z.eqb_spec (byteOf c) 159); [lia|].
    cbn [andb orb]. rewrite !andb_false_r. reflexivity. }
  destruct r as [|b [|a r]]; rewrite ?H2, ?H3; reflexivity.
Qed.

Lemma trimLeftSpace_pad l s : allSpace l = true -> trimLeftSpace (l ++ s) = trimLeftSpace s.
Proof.
  induction l as [|c l IH]; intros H; [reflexivity|].
  cbn [allSpace] in H. apply andb_prop in H as [Hc Hl].
  cbn [append trimLeftSpace]. rewrite Hc. now apply IH.
Qed.

Lemma trimRightSpaceRev_pad l s :
  allSpace l = true -> trimRightSpaceRev (l ++ s) = trimRightSpaceRev s.
Proof.
  induction l as [|c l IH]; intros H; [reflexivity|].
  cbn [allSpace] in H. apply andb_prop in H as [Hc Hl].
  cbn [append trimRightSpaceRev]. rewrite Hc. now apply IH.
Qed.

Lemma allSpace_append a b : allSpace (a ++ b) = allSpace a && allSpace b.
Proof.
  induction a as [|c a IH]; [reflexivity|].
  cbn [append allSpace]. rewrite IH. apply andb_assoc.
Qed.

Lemma allSpace_reverse s : allSpace (reverse s) = allSpace s.
Proof.
  induction s as [|c s IH]; [reflexivity|].
  rewrite reverse_cons, allSpace_append, IH. cbn [allSpace].
  rewrite andb_true_r. apply andb_comm.
Qed.

(** Surrounding ASCII white space is removed and nothing else. *)
Lemma TrimSpace_pad l a r t :
  allSpace l = true -> allSpace t = true ->
  plainByte a = true -> endsPlain (String a r) ->
  TrimSpace (l ++ String a r ++ t) = String a r.
Proof.
  intros Hl Ht Ha (c & r' & Hrev & Hc). unfold TrimSpace.
  rewrite trimLeftSpace_pad by assumption.
  change (String a r ++ t) with (String a (r ++ t)).
  rewrite trimLeftSpace_plain by assumption.
  change (String a (r ++ t)) with (String a r ++ t).
  rewrite reverse_append, trimRightSpaceRev_pad by now rewrite allSpace_reverse.
  rewrite Hrev, trimRightSpaceRev_plain by assumption.
  rewrite <- Hrev. apply reverse_involutive.
Qed.

Lemma endsPlain_append a b : endsPlain b -> endsPlain (a ++ b).
Proof.
  intros (c & r & Hrev & Hc). exists c, (r ++ reverse a).
  split; [|assumption]. now rewrite reverse_append, Hrev.
Qed.

Lemma Split_append a b sep :
  containsByte a sep = false -> Split (a ++ String sep b) sep = a :: Split b sep.
Proof.
  induction a as [|c a IH]; intros H.
  - cbn [append Split]. now rewrite Ascii.eqb_refl.
  - cbn [containsByte] in H. apply orb_false_iff in H as [Hc Ha].
    cbn [append Split]. rewrite Hc, (IH Ha). reflexivity.
Qed.

(** ** The numerals of [%d] *)

Lemma formatBits_acc fuel : forall n acc,
  formatBits fuel n acc = formatBits fuel n "" ++ acc.
Proof.
  induction fuel as [|fuel IH]; intros n acc; [reflexivity|].
  rewrite !formatBits_S. destruct (n <? 10); [reflexivity|].
  rewrite IH, (IH _ (String _ "")), append_assoc. reflexivity.
Qed.

Lemma isDigit_plain c : isDigit c = true -> plainByte c = true.
Proof.
  unfold isDigit, plainByte, isAsciiSpace. intros H.
  apply andb_prop in H as [H1 H2]. apply Z.leb_le in H1, H2.
  apply andb_true_intro. split; [apply Z.ltb_lt; lia|].
  repeat match goal with
         | |- context [byteOf c =? ?k] => destruct (Z.eqb_spec (byteOf c) k); [lia|]
         end.
  reflexivity.
Qed.

Lemma formatBits_endsPlain fuel n : endsPlain (formatBits (S fuel) n "").
Proof.
  rewrite formatBits_S.
  assert (Hd : plainByte (digitChar (n mod 10)) = true).
  { apply isDigit_plain. apply digitChar_digit. apply Z.mod_pos_bound. lia. }
  destruct (n <? 10).
  - exists (digitChar (n mod 10)), "". split; [reflexivity | assumption].
  - rewrite formatBits_acc. apply endsPlain_append.
    exists (digitChar (n mod 10)), "". split; [reflexivity | assumption].
Qed.

Lemma Sprintf_d_endsPlain n : endsPlain (Sprintf_d n).
Proof.
  unfold Sprintf_d. destruct (n <? 0).
  - change (String "-" ?s) with ("-" ++ s). apply endsPlain_append.
    apply formatBits_endsPlain.
  - apply formatBits_endsPlain.
Qed.

Lemma Sprintf_d_first n :
  exists a r, Sprintf_d n = String a r /\ plainByte a = true.
Proof.
  unfold Sprintf_d. destruct (Z.ltb_spec n 0) as [Hn|Hn].
  - eexists _, _. split; reflexivity.
  - destruct (formatBits_head 19 n "" ltac:(lia)) as (d & r & Hd & ->).
    exists (digitChar d), r. split; [reflexivity|].
    apply isDigit_plain. now apply digitChar_digit.
Qed.

Lemma Sprintf_d_bytes n c :
  containsByte (Sprintf_d n) c = true -> isDigit c = true \/ c = "-"%char.
Proof.
  unfold Sprintf_d. destruct (Z.ltb_spec n 0) as [Hn|Hn].
  - cbn [containsByte]. destruct (Ascii.eqb_spec "-" c) as [E|E]; [now right|].
    cbn [orb]. intros Hc. apply formatBits_bytes in Hc; [|lia].
    destruct Hc; [now left | discriminate].
  - intros Hc. apply formatBits_bytes in Hc; [|lia].
    destruct Hc; [now left | discriminate].
Qed.

Lemma Sprintf_d_lacks n c :
  isDigit c = false -> c <> "-"%char -> containsByte (Sprintf_d n) c = false.
Proof.
  intros Hd Hm. destruct (containsByte (Sprintf_d n) c) eqn:E; [|reflexivity].
  apply Sprintf_d_bytes in E as [E|E]; [congruence | contradiction].
Qed.

(** ** The parsers read what the tools print *)

Lemma dims_token_split w h :
  Split (Sprintf_d w ++ "x" ++ Sprintf_d h) "x" = [Sprintf_d w; Sprintf_d h].
Proof.
  change ("x" ++ Sprintf_d h) with (String "x"%char (Sprintf_d h)).
  rewrite Split_append by (apply Sprintf_d_lacks; [reflexivity | discriminate]).
  rewrite Split_no_separator by (apply Sprintf_d_lacks; [reflexivity | discriminate]).
  reflexivity.
Qed.

(** X21.  The parser of the [identify] revision reads any two [int]s printed
    as ["%d %d"], surrounded by any ASCII white space, as those numbers. *)
Theorem parseIdentify_reads_printed_dimensions :
  forall w h lead trail,
    GoInt.in_range w -> GoInt.in_range h ->
    allSpace lead = true -> allSpace trail = true ->
    parseIdentify (lead ++ (Sprintf_d w ++ " " ++ Sprintf_d h) ++ trail) = inr (w, h).
Proof.
  intros w h lead trail Rw Rh Hl Ht. unfold parseIdentify.
  destruct (Sprintf_d_first w) as (a & r & Ew & Ha).
  assert (Hcore : Sprintf_d w ++ " " ++ Sprintf_d h
                  = String a (r ++ " " ++ Sprintf_d h)) by now rewrite Ew.
  rewrite Hcore, TrimSpace_pad; try assumption.
  2:{ rewrite <- Hcore. apply endsPlain_append. apply endsPlain_append.
      apply Sprintf_d_endsPlain. }
  rewrite <- Hcore.
  change (" " ++ Sprintf_d h) with (String " "%char (Sprintf_d h)).
  rewrite Split_append by (apply Sprintf_d_lacks; [reflexivity | discriminate]).
  rewrite Split_no_separator by (apply Sprintf_d_lacks; [reflexivity | discriminate]).
  now rewrite !Atoi_of_Sprintf_d.
Qed.

Lemma parseIdentify_reads_printed_dimensions_witness :
  parseIdentify (String (ascii_of_nat 10) "" ++ (Sprintf_d 1170 ++ " " ++ Sprintf_d 5000) ++ "")
  = inr (1170, 5000).
Proof.
  apply (parseIdentify_reads_printed_dimensions 1170 5000 (String (ascii_of_nat 10) "") "");
    try reflexivity;
    unfold GoInt.in_range, GoInt.min_int, GoInt.max_int; lia.
Defined.

(** X22.  The [vipsheader] parser reads every line of the shape
    [name: WxH rest], surrounded by any ASCII white space, as (W, H), for all
    [int]s W and H, every name without colon that starts with a visible
    ASCII byte, and every colon-free rest (or none). *)
Theorem parseVipsheader_reads_printed_dimensions :
  forall name w h tail lead trail,
    GoInt.in_range w -> GoInt.in_range h ->
    allSpace lead = true -> allSpace trail = true ->
    (exists a r, name = String a r /\ plainByte a = true) ->
    containsByte name ":" = false ->
    (tail = "" \/
     exists rest, tail = " " ++ rest /\ containsByte rest ":" = false /\ endsPlain rest) ->
    parseVipsheader
      (lead ++ (name ++ ": " ++ Sprintf_d w ++ "x" ++ Sprintf_d h ++ tail) ++ trail)
    = inr (w, h).
Proof.
  intros name w h tail lead trail Rw Rh Hl Ht (a & r & -> & Ha) Hname Htail.
  set (dims := Sprintf_d w ++ "x" ++ Sprintf_d h).
  assert (Hdims_colon : containsByte dims ":" = false).
  { unfold dims. rewrite !containsByte_append.
    rewrite !Sprintf_d_lacks by (reflexivity || discriminate). reflexivity. }
  assert (Hdims_space : containsByte dims " " = false).
  { unfold dims. rewrite !containsByte_append.
    rewrite !Sprintf_d_lacks by (reflexivity || discriminate). reflexivity. }
  assert (Hassoc : Sprintf_d w ++ "x" ++ Sprintf_d h ++ tail = dims ++ tail).
  { unfold dims. now rewrite !append_assoc. }
  assert (Htail_colon : containsByte tail ":" = false).
  { destruct Htail as [->|(rest & -> & Hc & _)]; [reflexivity|].
    cbn [append containsByte]. exact Hc. }
  assert (Htail_end : endsPlain (dims ++ tail)).
  { destruct Htail as [->|(rest & -> & _ & He)].
    - rewrite append_nil_r. unfold dims. do 2 apply endsPlain_append.
      apply Sprintf_d_endsPlain.
    - do 2 apply endsPlain_append. exact He. }
  assert (Htokens : exists tokens, Split (dims ++ tail) " " = dims :: tokens).
  { destruct Htail as [->|(rest & -> & _ & _)].
    - rewrite append_nil_r, Split_no_separator by assumption. now exists [].
    - change (" " ++ rest) with (String " "%char rest).
      rewrite Split_append by assumption. now eexists. }
  destruct (Sprintf_d_first w) as (b & s & Ew & Hb).
  assert (Hdims_first : dims ++ tail = String b ((s ++ "x" ++ Sprintf_d h) ++ tail)).
  { unfold dims. now rewrite Ew. }
  unfold parseVipsheader. rewrite Hassoc.
  change (String a r ++ ": " ++ dims ++ tail)
    with (String a (r ++ ": " ++ dims ++ tail)).
  rewrite TrimSpace_pad; try assumption.
  2:{ change (String a (r ++ ": " ++ dims ++ tail))
        with (String a r ++ ": " ++ dims ++ tail).
      do 2 apply endsPlain_append. exact Htail_end. }
  change (String a (r ++ ": " ++ dims ++ tail))
    with (String a r ++ String ":"%char (" " ++ dims ++ tail)).
  rewrite Split_append by assumption.
  rewrite Split_no_separator.
  2:{ cbn [append containsByte]. rewrite containsByte_append, Hdims_colon, Htail_colon.
      reflexivity. }
  assert (Htrim : TrimSpace (" " ++ dims ++ tail) = dims ++ tail).
  { rewrite <- (append_nil_r (dims ++ tail)) at 1. rewrite Hdims_first.
    apply TrimSpace_pad; try reflexivity; [assumption|].
    rewrite <- Hdims_first. exact Htail_end. }
  rewrite Htrim. destruct Htokens as [tokens ->].
  unfold dims. rewrite dims_token_split.
  now rewrite !Atoi_of_Sprintf_d.
Qed.

Lemma parseVipsheader_reads_printed_dimensions_witness :
  parseVipsheader
    ("" ++ ("cteam_01.jpg" ++ ": " ++ Sprintf_d 1170 ++ "x" ++ Sprintf_d 5000
            ++ " uchar, 3 bands, srgb, jpegload")
     ++ String (ascii_of_nat 10) "")
  = inr (1170, 5000).
Proof.
  apply (parseVipsheader_reads_printed_dimensions "cteam_01.jpg" 1170 5000
           " uchar, 3 bands, srgb, jpegload" "" (String (ascii_of_nat 10) "")).
  - unfold GoInt.in_range, GoInt.min_int, GoInt.max_int. lia.
  - unfold GoInt.in_range, GoInt.min_int, GoInt.max_int. lia.
  - reflexivity.
  - reflexivity.
  - eexists _, _. split; reflexivity.
  - reflexivity.
  - right. exists "uchar, 3 bands, srgb, jpegload". split; [reflexivity|].
    split; [reflexivity|]. eexists _, _. split; reflexivity.
Defined.

(** ** The pixels of a chunk *)

Lemma loopRange_In lo hi y : In y (loopRange lo hi) <-> lo <= y < hi.
Proof.
  unfold loopRange. rewrite in_map_iff. split.
  - intros (k & <- & Hk). apply in_seq in Hk. lia.
  - intros H. exists (Z.to_nat (y - lo)). split; [lia|]. apply in_seq. lia.
Qed.

(** X23.  The pixel copy writes exactly the rectangle of the chunk: column
    [x] of row [y'] is set, for [0 <= x < width] and
    [0 <= y' < endY - startY] only, and to the source pixel at column [x] of
    row [startY + y'] (no horizontal shift, cropped or not). *)
Theorem chunk_pixels_are_the_source_rows :
  forall (Color : Type) (At : Z -> Z -> Color) width startY endY cropWidth,
    0 <= startY -> endY <= GoInt.max_int -> width <= GoInt.max_int ->
    forall x y' c,
      In (x, y', c) (copyPixels At width startY endY cropWidth) <->
      0 <= x < width /\ 0 <= y' < endY - startY /\ c = At x (startY + y').
Proof.
  intros Color At width startY endY cropWidth Hs He Hw x y' c.
  unfold copyPixels. rewrite in_flat_map.
  assert (HsrcX : forall x0, 0 <= x0 < width -> Go.srcX cropWidth x0 = x0).
  { intros x0 Hx0. unfold Go.srcX, GoInt.add. destruct cropWidth; [|reflexivity].
    rewrite Z.add_0_r. apply wrap_in_range. int_consts. lia. }
  assert (Hsub : forall y, startY <= y < endY -> GoInt.sub y startY = y - startY).
  { intros y Hy. unfold GoInt.sub. apply wrap_in_range. int_consts. lia. }
  split.
  - intros (y & Hy & Hin). apply loopRange_In in Hy.
    apply in_map_iff in Hin as (x0 & E & Hx0). apply loopRange_In in Hx0.
    injection E as <- <- <-. rewrite HsrcX, Hsub by assumption.
    split; [assumption|]. split; [lia|]. f_equal. lia.
  - intros (Hx & Hy & ->). exists (startY + y'). split; [apply loopRange_In; lia|].
    apply in_map_iff. exists x. split; [|apply loopRange_In; lia].
    rewrite HsrcX, Hsub by lia. f_equal. f_equal. lia.
Qed.

Lemma chunk_pixels_are_the_source_rows_witness :
  In (3, 0, 3 + 5000) (copyPixels (fun x y => x + y) 1500 5000 10000 true).
Proof.
  apply (chunk_pixels_are_the_source_rows Z (fun x y => x + y) 1500 5000 10000 true);
    unfold GoInt.max_int; lia.
Defined.

(** ** The message of a successful run *)

Lemma quo_floor_nonneg h mh :
  0 <= h -> 0 < mh -> h + mh - 1 <= GoInt.max_int ->
  exists q, GoInt.quo (GoInt.sub (GoInt.add h mh) 1) mh = Some q /\ 0 <= q.
Proof.
  intros Hh Hmh Hmax. unfold GoInt.quo, GoInt.sub, GoInt.add.
  destruct (Z.eqb_spec mh 0); [lia|]. rewrite wrap_sub_wrap.
  rewrite (wrap_in_range (h + mh - 1)) by (int_consts; lia).
  rewrite Z.quot_div_nonneg by lia.
  assert (0 <= (h + mh - 1) / mh) by (apply Z.div_pos; lia).
  assert ((h + mh - 1) / mh <= h + mh - 1).
  { pose proof (ceiling_bounds h mh Hmh). nia. }
  rewrite wrap_in_range by (int_consts; lia).
  eexists. split; [reflexivity | assumption].
Qed.

(** X24.  For an image of height >= 0 and a positive maxChunkHeight whose
    sum fits an [int], the message of a successful in-process run states the
    number of entries of [images]. *)
Theorem message_counts_the_images :
  forall env p imagePath outputDir pfx rw mi t resp w h,
    processImageWithGo env p imagePath outputDir pfx rw mi = (t, Ok resp) ->
    image_Decode env imagePath = Some (w, h) ->
    0 <= h -> 0 < MaxHeight p -> h + MaxHeight p - 1 <= GoInt.max_int ->
    Message resp
    = "Successfully split image into "
      ++ Sprintf_d (Z.of_nat (List.length (Images resp)))
      ++ " parts and created zip file".
Proof.
  intros env p imagePath outputDir pfx rw mi t resp w h H Hd Hh Hmh Hmax.
  unfold processImageWithGo in H. inv_run. rewrite Hd in H.
  destruct (quo_floor_nonneg h (MaxHeight p) Hh Hmh Hmax) as (q & Hq & Hq0).
  unfold Go.splitCount in H. rewrite Hq in H.
  set (n := if (mi >? 0) && (q >? mi) then mi else q) in H.
  assert (Hn : 0 <= n).
  { unfold n. destruct (Z.gtb_spec mi 0); cbn [andb]; [|assumption].
    destruct (Z.gtb_spec q mi); lia. }
  inv_run.
  match goal with H : renderGo _ _ _ _ = _ |- _ => apply renderGo_Ok in H as [-> _] end.
  match goal with H : zipLoop _ _ _ _ = _ |- _ => apply zipLoop_Ok in H as [-> _] end.
  subst resp. cbn [Message Images].
  rewrite !length_map, loopIndices_length, Z2Nat.id by assumption. reflexivity.
Qed.

Lemma message_counts_the_images_witness :
  exists t resp,
    processImageWithGo sampleEnv (sampleProcessor false)
      "/data/1700000000/original_image.jpg" "/data/1700000000" "page" 0 0
    = (t, Ok resp) /\
    Message resp
    = "Successfully split image into "
      ++ Sprintf_d (Z.of_nat (List.length (Images resp)))
      ++ " parts and created zip file".
Proof.
  destruct (processImageWithGo sampleEnv (sampleProcessor false)
              "/data/1700000000/original_image.jpg" "/data/1700000000" "page" 0 0)
    as [t [resp| |]] eqn:E; try (vm_compute in E; discriminate E).
  exists t, resp. split; [reflexivity|].
  apply (message_counts_the_images sampleEnv (sampleProcessor false)
           "/data/1700000000/original_image.jpg" "/data/1700000000" "page" 0 0
           t resp 2000 12000 E); try reflexivity; cbn; unfold GoInt.max_int; lia.
Defined.
